(** * test_kvc: the KV-cache shift reproduction harness

    A shallow embedding of [src/test_kvc/main.cpp].  The harness is a linear
    script over the inference runtime (llama / mtmd / common): every call
    into that runtime is an oracle of the [Runtime] record below, and the
    script itself ([get_model_arch], [build_prompt], [generate_tokens],
    [main]) is written in a small monad that threads the runtime state,
    records the calls and prints as a trace of events, and carries the three
    ways a C++ function is left: normally, by [return] from [main], or by a
    thrown exception. *)

From stdpp Require Import base numbers list strings gmap sets.

Open Scope Z_scope.

(** ** Machine integers *)

(** [llama_pos], [llama_token] and [int] are 32-bit signed integers.  Where
    the script increments one, the two's-complement wrap is written out. *)
Definition wrap32 (z : Z) : Z := (z + 2147483648) `mod` 4294967296 - 2147483648.

Definition in_int32 (z : Z) : Prop := -2147483648 ≤ z < 2147483648.

(** The line feed that ends the C format strings. *)
Definition LF : string := Eval cbv in String (Ascii.ascii_of_nat 10) "".

(** ** Events *)

(** A handle is the address a library constructor returned. *)
Definition Handle := Z.

Inductive Resource :=
  | RGguf | RModel | RContext | RMtmd
  | RBitmap (h : Handle)
  | RChunks | RSampler | RBatch.

#[global] Instance Resource_eq_dec : EqDecision Resource.
Proof. solve_decision. Defined.

Inductive Arg := AStr (s : string) | AInt (z : Z).

Inductive Stream := Stdout | Stderr.

(** One slot of a [llama_batch]: what [common_batch_add] stores. *)
Record BatchEntry := {
  be_token : Z;
  be_pos : Z;
  be_seq : list Z;
  be_logits : bool
}.

Inductive Event :=
  | EvPrint (out : Stream) (fmt : string) (args : list Arg)
  | EvFlush
  | EvAcquire (r : Resource)
  | EvRelease (r : Resource)
  | EvThrow (what : string)
  | EvCommonInit
  | EvInitFromParams (model_path : string) (n_ctx : Z)
  | EvMtmdInit (mmproj_path : string) (n_threads : Z)
  | EvBitmapInit (path : string) (res : option Handle)
  | EvBuildPrompt (arch : string)
  | EvTokenize (prompt : string) (images : list Handle) (rc : Z)
  | EvEvalChunks (n_past : Z) (rc : Z) (new_n_past : Z)
  | EvSample (tok : Z)
  | EvAccept (tok : Z)
  | EvBatchClear
  | EvBatchAdd (e : BatchEntry)
  | EvDecode (b : list BatchEntry) (rc : Z)
  | EvSeqPosMax (seq : Z) (res : Z)
  | EvSeqRm (seq p0 p1 : Z)
  | EvSeqAdd (seq p0 p1 delta : Z).

(** ** The sequence-0 KV cache *)

Module KV.

(** Modelled from the spec: the cache operations [llama_memory_seq_rm],
    [llama_memory_seq_add] and [llama_memory_seq_pos_max] belong to the
    inference runtime and are not part of the harness.  The cache of
    sequence 0 is the set of its occupied positions; a cache shift is
    "removing a contiguous range of cached positions and renumbering
    subsequent positions to close the gap". *)
Definition seq_rm (p0 p1 : Z) (c : gset Z) : gset Z :=
  filter (λ p, ¬ (p0 ≤ p < p1)) c.

(** Modelled from the spec: [llama_memory_seq_add] adds [delta] to every
    occupied position of the range; a negative [p1] leaves the range open
    to the right, so that every position [>= p0] moves. *)
Definition seq_add (p0 p1 delta : Z) (c : gset Z) : gset Z :=
  set_map (λ p, if decide (p0 ≤ p ∧ (p1 < 0 ∨ p < p1)) then p + delta else p) c.

(** Modelled from the spec: [llama_memory_seq_pos_max] is the largest
    occupied position, -1 for an empty sequence. *)
Definition seq_pos_max (c : gset Z) : Z :=
  foldr Z.max (-1) (elements c).

(** The contiguous occupied range [[0, N)]. *)
Definition range (N : Z) : gset Z := list_to_set (seqZ 0 N).

End KV.

(** ** Runtime state and oracles *)

(** The state of the inference runtime: the occupied positions of sequence
    0, which the script edits, and everything else, which it never sees. *)
Record LibState (Ω : Type) := MkLib {
  kv : gset Z;
  opaque : Ω
}.
Arguments MkLib {Ω} _ _.
Arguments kv {Ω} _.
Arguments opaque {Ω} _.

(** The machine adds the stack of scoped owning wrappers that are alive. *)
Record Machine (Ω : Type) := MkMachine {
  lib : LibState Ω;
  scope : list Resource
}.
Arguments MkMachine {Ω} _ _.
Arguments lib {Ω} _.
Arguments scope {Ω} _.

(** The library calls of the script.  The functions on files are read-only;
    the others may change the runtime state.  [DICE_IMAGE_PATH] is a macro of
    the build, and whether the stack is unwound when an exception finds no
    handler is left to the C++ implementation. *)
Record Runtime (Ω : Type) := MkRuntime {
  DICE_IMAGE_PATH : string;
  unwinds_uncaught : bool;
  gguf_find_key : string → string → Z;
  gguf_get_val_str : string → Z → string;
  common_init_from_params : string → Z → LibState Ω → LibState Ω;
  mtmd_init_from_file : string → Z → LibState Ω → LibState Ω;
  mtmd_helper_bitmap_init_from_file : string → LibState Ω → option Handle * LibState Ω;
  mtmd_tokenize : string → list Handle → LibState Ω → Z * LibState Ω;
  mtmd_helper_eval_chunks : Z → LibState Ω → Z * Z * LibState Ω;
  common_sampler_init : LibState Ω → LibState Ω;
  common_sampler_sample : LibState Ω → Z * LibState Ω;
  common_sampler_accept : Z → LibState Ω → LibState Ω;
  common_token_to_piece : Z → string;
  llama_vocab_is_eog : Z → bool;
  llama_decode : list BatchEntry → LibState Ω → Z * LibState Ω
}.
Arguments DICE_IMAGE_PATH {Ω} _.
Arguments unwinds_uncaught {Ω} _.
Arguments gguf_find_key {Ω} _ _ _.
Arguments gguf_get_val_str {Ω} _ _ _.
Arguments common_init_from_params {Ω} _ _ _ _.
Arguments mtmd_init_from_file {Ω} _ _ _ _.
Arguments mtmd_helper_bitmap_init_from_file {Ω} _ _ _.
Arguments mtmd_tokenize {Ω} _ _ _ _.
Arguments mtmd_helper_eval_chunks {Ω} _ _ _.
Arguments common_sampler_init {Ω} _ _.
Arguments common_sampler_sample {Ω} _ _.
Arguments common_sampler_accept {Ω} _ _ _.
Arguments common_token_to_piece {Ω} _ _.
Arguments llama_vocab_is_eog {Ω} _ _.
Arguments llama_decode {Ω} _ _ _.

(** ** The monad of the script *)

(** How a piece of the script is left: it falls through with a value, [main]
    returns an exit code, an exception is in flight, or a loop was cut off by
    its fuel before it finished. *)
Inductive Result (A : Type) :=
  | Ok (a : A)
  | Exit (code : Z)
  | Throw (what : string)
  | OutOfFuel.
Arguments Ok {A} _.
Arguments Exit {A} _.
Arguments Throw {A} _.
Arguments OutOfFuel {A}.

Definition Prog (Ω A : Type) : Type :=
  Machine Ω → Result A * Machine Ω * list Event.

Definition result {Ω A} (r : Result A * Machine Ω * list Event) : Result A := r.1.1.
Definition final {Ω A} (r : Result A * Machine Ω * list Event) : Machine Ω := r.1.2.
Definition trace {Ω A} (r : Result A * Machine Ω * list Event) : list Event := r.2.

Definition pure {Ω A} (a : A) : Prog Ω A := λ m, (Ok a, m, []).

Definition bind {Ω A B} (c : Prog Ω A) (k : A → Prog Ω B) : Prog Ω B :=
  λ m,
    match c m with
    | (Ok a, m1, t1) => let '(r, m2, t2) := k a m1 in (r, m2, t1 ++ t2)
    | (Exit code, m1, t1) => (Exit code, m1, t1)
    | (Throw what, m1, t1) => (Throw what, m1, t1)
    | (OutOfFuel, m1, t1) => (OutOfFuel, m1, t1)
    end.

Declare Scope prog_scope.
Delimit Scope prog_scope with prog.
Notation "'let*' x ':=' c 'in' k" := (bind c (λ x, k))
  (at level 10, x name, c at level 100, k at level 200,
   format "'[v' 'let*'  x  :=  c  'in' '/' k ']'") : prog_scope.
Notation "'let*' ' p ':=' c 'in' k" := (bind c (λ p, k))
  (at level 10, p strict pattern, c at level 100, k at level 200) : prog_scope.
Notation "c >> k" := (bind c (λ _, k))
  (at level 100, k at level 200, right associativity) : prog_scope.
Open Scope prog_scope.

Section Script.

Context {Ω : Type} (rt : Runtime Ω).

Definition emit (e : Event) : Prog Ω () := λ m, (Ok (), m, [e]).

Definition printf (fmt : string) (args : list Arg) : Prog Ω () :=
  emit (EvPrint Stdout fmt args).

Definition fprintf (out : Stream) (fmt : string) (args : list Arg) : Prog Ω () :=
  emit (EvPrint out fmt args).

(** A call into the runtime that returns a value. *)
Definition call {A} (f : LibState Ω → A * LibState Ω) : Prog Ω A :=
  λ m, let '(a, l) := f (lib m) in (Ok a, MkMachine l (scope m), []).

(** A call into the runtime for its effect only. *)
Definition call_ (f : LibState Ω → LibState Ω) : Prog Ω () :=
  λ m, (Ok (), MkMachine (f (lib m)) (scope m), []).

(** Construction of a scoped owning wrapper ([unique_ptr] and the like). *)
Definition own (r : Resource) : Prog Ω () :=
  λ m, (Ok (), MkMachine (lib m) (r :: scope m), [EvAcquire r]).

(** The destructor of the innermost wrapper, at the end of its block. *)
Definition disown : Prog Ω () :=
  λ m,
    match scope m with
    | [] => (Ok (), m, [])
    | r :: rs => (Ok (), MkMachine (lib m) rs, [EvRelease r])
    end.

(** [return code;] in [main]: the wrappers alive are destroyed, the
    youngest first. *)
Definition ret {A} (code : Z) : Prog Ω A :=
  λ m, (Exit code, MkMachine (lib m) [], EvRelease <$> scope m).

(** [throw std::runtime_error(what)].  No function of the script has a
    handler, so the exception ends in [std::terminate]; the wrappers are
    destroyed only where the implementation unwinds for it. *)
Definition throw {A} (what : string) : Prog Ω A :=
  λ m,
    if unwinds_uncaught rt
    then (Throw what, MkMachine (lib m) [], EvThrow what :: (EvRelease <$> scope m))
    else (Throw what, m, [EvThrow what]).

(** *** get_model_arch *)

Definition get_model_arch (path : string) : Prog Ω string :=
  own RGguf >>
  let key_id := gguf_find_key rt path "general.architecture" in
  if key_id <? 0 then throw "Architecture key not found"
  else
    let arch := gguf_get_val_str rt path key_id in
    disown >> pure arch.

(** *** build_prompt *)

Definition build_prompt (arch : string) : string + string :=
  if String.eqb arch "qwen3vl" then
    inl ("<|im_start|>user" +:+ LF +:+
         "<__media__><__media__>what is in the image?<|im_end|>" +:+ LF +:+
         "<|im_start|>assistant" +:+ LF)
  else if String.eqb arch "gemma3" then
    inl ("<start_of_turn>user" +:+ LF +:+
         "<__media__><__media__><end_of_turn>" +:+ LF +:+
         "<start_of_turn>model" +:+ LF)
  else inr ("Unsupported architecture: " +:+ arch).

Definition call_build_prompt (arch : string) : Prog Ω string :=
  emit (EvBuildPrompt arch) >>
  match build_prompt arch with
  | inl p => pure p
  | inr what => throw what
  end.

(** *** generate_tokens *)

Inductive Flow := Next | Break.

(** The body of the [for] loop, from the sampler call to the decode. *)
Definition gen_body (n_pos : Z) (batch : list BatchEntry)
  : Prog Ω (Flow * Z * list BatchEntry) :=
  let* token := call (common_sampler_sample rt) in
  emit (EvSample token) >>
  call_ (common_sampler_accept rt token) >>
  emit (EvAccept token) >>
  let token_str := common_token_to_piece rt token in
  printf "%s" [AStr token_str] >>
  emit EvFlush >>
  if llama_vocab_is_eog rt token then
    printf " [EOS]" [] >>
    pure (Break, n_pos, batch)
  else
    emit EvBatchClear >>
    let batch := [] in
    let entry := {| be_token := token; be_pos := n_pos; be_seq := [0]; be_logits := true |} in
    let n_pos := wrap32 (n_pos + 1) in
    emit (EvBatchAdd entry) >>
    let batch := batch ++ [entry] in
    let* rc := call (llama_decode rt batch) in
    emit (EvDecode batch rc) >>
    if negb (rc =? 0) then
      printf " [DECODE_FAILED]" [] >>
      pure (Break, n_pos, batch)
    else pure (Next, n_pos, batch).

(** [for (int i = 0; i < count; i++) body]: every unit of [fuel] pays for
    one evaluation of the loop test. *)
Fixpoint gen_loop (fuel : nat) (count i n_pos : Z) (batch : list BatchEntry)
  : Prog Ω Z :=
  match fuel with
  | O => λ m, (OutOfFuel, m, [])
  | S fuel =>
      if i <? count then
        let* '(flow, n_pos, batch) := gen_body n_pos batch in
        match flow with
        | Break => pure n_pos
        | Next => gen_loop fuel count (wrap32 (i + 1)) n_pos batch
        end
      else pure n_pos
  end.

(** The position counter is passed by reference: the value returned is the
    one the caller's [n_pos] holds afterwards. *)
Definition generate_tokens (n_pos count : Z) (phase : string) : Prog Ω Z :=
  printf (LF +:+ "=== Generation: %s ===" +:+ LF) [AStr phase] >>
  emit (EvAcquire RBatch) >>
  let* n_pos := gen_loop (S (Z.to_nat count)) count 0 n_pos [] in
  emit (EvRelease RBatch) >>
  printf LF [] >>
  pure n_pos.

(** *** main *)

Definition argv_at (argv : list string) (i : nat) : string := nth i argv "".

Definition PREFIX_LEN : Z := 3.

Definition first_image_npos (arch : string) : Z :=
  if String.eqb arch "qwen3vl" then 3 else 258.

Definition REMOVE_START : Z := PREFIX_LEN.

Definition remove_end (arch : string) : Z := PREFIX_LEN + first_image_npos arch.

Definition llama_memory_seq_pos_max (seq : Z) : Prog Ω Z :=
  λ m,
    let res := KV.seq_pos_max (kv (lib m)) in
    (Ok res, m, [EvSeqPosMax seq res]).

Definition llama_memory_seq_rm (seq p0 p1 : Z) : Prog Ω () :=
  λ m,
    (Ok (),
     MkMachine (MkLib (KV.seq_rm p0 p1 (kv (lib m))) (opaque (lib m))) (scope m),
     [EvSeqRm seq p0 p1]).

Definition llama_memory_seq_add (seq p0 p1 delta : Z) : Prog Ω () :=
  λ m,
    (Ok (),
     MkMachine (MkLib (KV.seq_add p0 p1 delta (kv (lib m))) (opaque (lib m))) (scope m),
     [EvSeqAdd seq p0 p1 delta]).

(** The block of [main] under "Remove first image from KV cache"; it
    returns the new value of [n_pos]. *)
Definition cache_shift (arch : string) : Prog Ω Z :=
  printf (LF +:+ "=== Shift ===" +:+ LF) [] >>
  let* pmax := llama_memory_seq_pos_max 0 in
  printf ("Next available cache pos before shift: %d" +:+ LF) [AInt (wrap32 (pmax + 1))] >>
  printf ("Removing first image: positions %d-%d (%d tokens)" +:+ LF)
         [AInt REMOVE_START; AInt (remove_end arch - 1); AInt (first_image_npos arch)] >>
  llama_memory_seq_rm 0 REMOVE_START (remove_end arch) >>
  printf ("Shifting remaining tokens back by %d positions" +:+ LF)
         [AInt (first_image_npos arch)] >>
  llama_memory_seq_add 0 (remove_end arch) (-1) (- first_image_npos arch) >>
  let* pmax := llama_memory_seq_pos_max 0 in
  let n_pos := wrap32 (pmax + 1) in
  printf ("New n_pos (next available cache pos) after shift: %d" +:+ LF) [AInt n_pos] >>
  pure n_pos.

Definition load_bitmap : Prog Ω (option Handle) :=
  let* img := call (mtmd_helper_bitmap_init_from_file rt (DICE_IMAGE_PATH rt)) in
  emit (EvBitmapInit (DICE_IMAGE_PATH rt) img) >>
  match img with
  | Some h => own (RBitmap h) >> pure img
  | None => pure img
  end.

Definition main (argc : Z) (argv : list string) : Prog Ω () :=
  if negb (argc =? 3) then
    printf ("Usage: %s <model_path> <mmproj_path>" +:+ LF) [AStr (argv_at argv 0)] >>
    ret 1
  else
  emit EvCommonInit >>
  let* arch := get_model_arch (argv_at argv 1) in
  printf ("Model architecture: %s" +:+ LF) [AStr arch] >>
  if negb (String.eqb arch "qwen3vl") && negb (String.eqb arch "gemma3") then
    fprintf Stderr ("Only qwen3vl and gemma3 are supported" +:+ LF) [] >>
    ret 1
  else
  call_ (common_init_from_params rt (argv_at argv 1) 1024) >>
  emit (EvInitFromParams (argv_at argv 1) 1024) >>
  own RModel >>
  own RContext >>
  call_ (mtmd_init_from_file rt (argv_at argv 2) 6) >>
  emit (EvMtmdInit (argv_at argv 2) 6) >>
  own RMtmd >>
  let* img1 := load_bitmap in
  let* img2 := load_bitmap in
  match img1, img2 with
  | Some h1, Some h2 =>
      let* prompt := call_build_prompt arch in
      own RChunks >>
      let images := [h1; h2] in
      let* rc := call (mtmd_tokenize rt prompt images) in
      emit (EvTokenize prompt images rc) >>
      if negb (rc =? 0) then
        printf ("Tokenization failed" +:+ LF) [] >>
        ret 1
      else
      let n_pos := 0 in
      printf ("Evaluating prompt with 2 images..." +:+ LF) [] >>
      let* '(rc, new_n_past) := call (mtmd_helper_eval_chunks rt n_pos) in
      emit (EvEvalChunks n_pos rc new_n_past) >>
      let n_pos := new_n_past in
      if negb (rc =? 0) then
        printf ("Evaluation failed" +:+ LF) [] >>
        ret 1
      else
      printf ("Position after mtmd evaluation: %d" +:+ LF) [AInt n_pos] >>
      call_ (common_sampler_init rt) >>
      emit (EvAcquire RSampler) >>
      let* n_pos := generate_tokens n_pos 5 "Before cache shift" in
      let* n_pos := cache_shift arch in
      let* n_pos := generate_tokens n_pos 50 "After cache shift" in
      emit (EvRelease RSampler) >>
      ret 0
  | _, _ =>
      printf ("Failed to load image" +:+ LF) [] >>
      ret 1
  end.

End Script.

(** ** Running the program *)

(** What the operating system sees of a run: the exit code [main] returned,
    or the abort that follows an exception nobody caught. *)
Inductive Outcome :=
  | Exited (code : Z)
  | Aborted (what : string)
  | Unfinished.

Definition outcome_of {A} (r : Result A) : Outcome :=
  match r with
  | Ok _ => Exited 0
  | Exit code => Exited code
  | Throw what => Aborted what
  | OutOfFuel => Unfinished
  end.

(** A process starts with no scoped wrapper alive. *)
Definition boot {Ω} (l : LibState Ω) : Machine Ω := MkMachine l [].

Definition run {Ω} (rt : Runtime Ω) (argc : Z) (argv : list string) (l : LibState Ω)
  : Result () * Machine Ω * list Event :=
  main rt argc argv (boot l).

Definition exit_status {Ω} (rt : Runtime Ω) (argc : Z) (argv : list string)
    (l : LibState Ω) : Outcome :=
  outcome_of (result (run rt argc argv l)).

(** A runtime whose vocabulary has no end-of-generation token; every other
    call is the one of [rt]. *)
Definition never_eog {Ω} (rt : Runtime Ω) : Runtime Ω := {|
  DICE_IMAGE_PATH := DICE_IMAGE_PATH rt;
  unwinds_uncaught := unwinds_uncaught rt;
  gguf_find_key := gguf_find_key rt;
  gguf_get_val_str := gguf_get_val_str rt;
  common_init_from_params := common_init_from_params rt;
  mtmd_init_from_file := mtmd_init_from_file rt;
  mtmd_helper_bitmap_init_from_file := mtmd_helper_bitmap_init_from_file rt;
  mtmd_tokenize := mtmd_tokenize rt;
  mtmd_helper_eval_chunks := mtmd_helper_eval_chunks rt;
  common_sampler_init := common_sampler_init rt;
  common_sampler_sample := common_sampler_sample rt;
  common_sampler_accept := common_sampler_accept rt;
  common_token_to_piece := common_token_to_piece rt;
  llama_vocab_is_eog := λ _, false;
  llama_decode := llama_decode rt
|}.

(** ** A scripted runtime

    A concrete runtime to run the script on: the model file has the
    architecture [sc_arch] (or lacks the key), the first [sc_images] bitmap
    loads succeed, tokenization and prompt evaluation return the given codes,
    the prompt fills the positions [[0, sc_prompt_len)], every decode returns
    [sc_decode_rc] and, when that is 0, caches the positions of its batch;
    the sampler produces the tokens 100, 101, ... and the tokens from
    [100 + sc_eog_at] on end the generation. *)
Module Scripted.

Record Scenario := {
  sc_arch : option string;
  sc_images : nat;
  sc_tokenize_rc : Z;
  sc_eval_rc : Z;
  sc_prompt_len : Z;
  sc_decode_rc : Z;
  sc_eog_at : Z;
  sc_unwinds : bool
}.

(** The hidden state counts the bitmap loads and the sampler calls. *)
Definition Hidden : Type := nat * Z.

Definition runtime (sc : Scenario) : Runtime Hidden := {|
  DICE_IMAGE_PATH := "dice.png";
  unwinds_uncaught := sc_unwinds sc;
  gguf_find_key := λ _ _, match sc_arch sc with Some _ => 7 | None => -1 end;
  gguf_get_val_str := λ _ _, default "" (sc_arch sc);
  common_init_from_params := λ _ _ l, l;
  mtmd_init_from_file := λ _ _ l, l;
  mtmd_helper_bitmap_init_from_file := λ _ l,
    let '(loads, samples) := opaque l in
    (if bool_decide (loads < sc_images sc)%nat then Some (4096 + Z.of_nat loads) else None,
     MkLib (kv l) (S loads, samples));
  mtmd_tokenize := λ _ _ l, (sc_tokenize_rc sc, l);
  mtmd_helper_eval_chunks := λ n_past l,
    (sc_eval_rc sc, n_past + sc_prompt_len sc,
     MkLib (if sc_eval_rc sc =? 0 then KV.range (sc_prompt_len sc) else kv l) (opaque l));
  common_sampler_init := λ l, l;
  common_sampler_sample := λ l,
    let '(loads, samples) := opaque l in
    (100 + samples, MkLib (kv l) (loads, samples + 1));
  common_sampler_accept := λ _ l, l;
  common_token_to_piece := λ _, "tok";
  llama_vocab_is_eog := λ tok, 100 + sc_eog_at sc <=? tok;
  llama_decode := λ b l,
    (sc_decode_rc sc,
     MkLib (if sc_decode_rc sc =? 0 then list_to_set (be_pos <$> b) ∪ kv l else kv l)
           (opaque l))
|}.

Definition fresh : LibState Hidden := MkLib ∅ (O, 0).

Definition argv : list string := ["test_kvc"; "model.gguf"; "mmproj.gguf"].

(** A qwen3vl model on which everything succeeds and nothing ends early. *)
Definition qwen : Scenario := {|
  sc_arch := Some "qwen3vl"; sc_images := 2; sc_tokenize_rc := 0; sc_eval_rc := 0;
  sc_prompt_len := 20; sc_decode_rc := 0; sc_eog_at := 1000; sc_unwinds := false
|}.

Definition gemma : Scenario := {|
  sc_arch := Some "gemma3"; sc_images := 2; sc_tokenize_rc := 0; sc_eval_rc := 0;
  sc_prompt_len := 530; sc_decode_rc := 0; sc_eog_at := 3; sc_unwinds := false
|}.

(** A model file without the [general.architecture] key. *)
Definition no_key : Scenario := {|
  sc_arch := None; sc_images := 2; sc_tokenize_rc := 0; sc_eval_rc := 0;
  sc_prompt_len := 20; sc_decode_rc := 0; sc_eog_at := 1000; sc_unwinds := false
|}.

(** A model of an architecture the script does not know. *)
Definition llama : Scenario := {|
  sc_arch := Some "llama"; sc_images := 2; sc_tokenize_rc := 0; sc_eval_rc := 0;
  sc_prompt_len := 20; sc_decode_rc := 0; sc_eog_at := 1000; sc_unwinds := false
|}.

(** Every decode fails. *)
Definition decode_fails : Scenario := {|
  sc_arch := Some "qwen3vl"; sc_images := 2; sc_tokenize_rc := 0; sc_eval_rc := 0;
  sc_prompt_len := 20; sc_decode_rc := 1; sc_eog_at := 1000; sc_unwinds := false
|}.

(** A cache that holds the positions [0, 20) of a qwen3vl prompt. *)
Definition twenty : Machine Hidden := boot (MkLib (KV.range 20) (O, 0)).

(** The runtime after three sampled tokens: the next token ends the
    generation on [gemma]. *)
Definition before_eog : Machine Hidden := boot (MkLib ∅ (2%nat, 3)).

(** The runtime on which the next decode fails. *)
Definition before_failure : Machine Hidden := boot (MkLib ∅ (2%nat, 0)).

(** The runtime of [qwen] with a vocabulary that never ends a generation. *)
Definition steady : Runtime Hidden := never_eog (runtime qwen).

(** A model on which no bitmap loads. *)
Definition no_image : Scenario := {|
  sc_arch := Some "gemma3"; sc_images := 0; sc_tokenize_rc := 0; sc_eval_rc := 0;
  sc_prompt_len := 530; sc_decode_rc := 0; sc_eog_at := 1000; sc_unwinds := false
|}.



End Scripted.

(** ** The vocabulary of the claims *)

(** The number of events of a trace that satisfy [p]. *)
Fixpoint tally (p : Event → bool) (t : list Event) : nat :=
  match t with
  | [] => 0
  | e :: t => (if p e then 1 else 0) + tally p t
  end%nat.

(** The calls of the sampler, of common_batch_add and of llama_decode. *)
Definition is_sample (e : Event) : bool :=
  match e with EvSample _ => true | _ => false end.

Definition is_batch_add (e : Event) : bool :=
  match e with EvBatchAdd _ => true | _ => false end.

Definition is_decode (e : Event) : bool :=
  match e with EvDecode _ _ => true | _ => false end.

(** The print of a sampled token's text: [printf("%s", token_str.c_str())]. *)
Definition is_token_print (e : Event) : bool :=
  match e with EvPrint Stdout fmt [AStr _] => String.eqb fmt "%s" | _ => false end.

(** The events of the loop body. *)
Definition loop_event (e : Event) : bool :=
  match e with
  | EvSample _ | EvAccept _ | EvFlush | EvBatchClear | EvBatchAdd _ | EvDecode _ _ => true
  | EvPrint Stdout fmt _ =>
      String.eqb fmt "%s" || String.eqb fmt " [EOS]" || String.eqb fmt " [DECODE_FAILED]"
  | _ => false
  end.

(** An event that neither samples nor submits a token. *)
Definition quiet (e : Event) : bool :=
  negb (is_sample e || is_batch_add e || is_decode e).

(** [n_pos++] *)
Definition next_pos (p : Z) : Z := wrap32 (p + 1).

(** The banner generate_tokens prints first. *)
Definition gen_banner (phase : string) : Event :=
  EvPrint Stdout (LF +:+ "=== Generation: %s ===" +:+ LF) [AStr phase].

(** The batch entry the script builds for a token. *)
Definition entry_of (tok n_pos : Z) : BatchEntry :=
  {| be_token := tok; be_pos := n_pos; be_seq := [0]; be_logits := true |}.

(** The events of a token put in the batch and decoded. *)
Definition submit_events (tok n_pos rc : Z) : list Event :=
  [EvBatchClear; EvBatchAdd (entry_of tok n_pos); EvDecode [entry_of tok n_pos] rc].

(** The architectures main accepts. *)
Definition supported (arch : string) : bool :=
  String.eqb arch "qwen3vl" || String.eqb arch "gemma3".

(** The cache after the two edits of the shift. *)
Definition shifted (arch : string) (c : gset Z) : gset Z :=
  KV.seq_add (remove_end arch) (-1) (- first_image_npos arch)
    (KV.seq_rm REMOVE_START (remove_end arch) c).

(** The events of the block of main that shifts the cache. *)
Definition shift_events (arch : string) (c : gset Z) : list Event :=
  [EvPrint Stdout (LF +:+ "=== Shift ===" +:+ LF) [];
   EvSeqPosMax 0 (KV.seq_pos_max c);
   EvPrint Stdout ("Next available cache pos before shift: %d" +:+ LF)
     [AInt (wrap32 (KV.seq_pos_max c + 1))];
   EvPrint Stdout ("Removing first image: positions %d-%d (%d tokens)" +:+ LF)
     [AInt REMOVE_START; AInt (remove_end arch - 1); AInt (first_image_npos arch)];
   EvSeqRm 0 REMOVE_START (remove_end arch);
   EvPrint Stdout ("Shifting remaining tokens back by %d positions" +:+ LF)
     [AInt (first_image_npos arch)];
   EvSeqAdd 0 (remove_end arch) (-1) (- first_image_npos arch);
   EvSeqPosMax 0 (KV.seq_pos_max (shifted arch c));
   EvPrint Stdout ("New n_pos (next available cache pos) after shift: %d" +:+ LF)
     [AInt (wrap32 (KV.seq_pos_max (shifted arch c) + 1))]].

(** A bitmap that failed to load. *)
Definition is_image_failure (e : Event) : bool :=
  match e with EvBitmapInit _ None => true | _ => false end.

(** A call of mtmd_tokenize that returned non-zero. *)
Definition is_tokenize_failure (e : Event) : bool :=
  match e with EvTokenize _ _ rc => negb (rc =? 0) | _ => false end.

(** A call of mtmd_helper_eval_chunks that returned non-zero. *)
Definition is_eval_failure (e : Event) : bool :=
  match e with EvEvalChunks _ rc _ => negb (rc =? 0) | _ => false end.

(** A call of mtmd_helper_eval_chunks that returned zero. *)
Definition is_eval_success (e : Event) : bool :=
  match e with EvEvalChunks _ rc _ => rc =? 0 | _ => false end.

(** A call of llama_decode that returned non-zero. *)
Definition is_decode_failure (e : Event) : bool :=
  match e with EvDecode _ rc => negb (rc =? 0) | _ => false end.



(** A print with the format string [msg]. *)
Definition prints (msg : string) (e : Event) : bool :=
  match e with EvPrint _ fmt _ => String.eqb fmt msg | _ => false end.



Definition is_gen_banner (e : Event) : bool :=
  match e with
  | EvPrint Stdout fmt [AStr _] => String.eqb fmt (LF +:+ "=== Generation: %s ===" +:+ LF)
  | _ => false
  end.

(** A call that edits the cache. *)
Definition is_cache_edit (e : Event) : bool :=
  match e with EvSeqRm _ _ _ | EvSeqAdd _ _ _ _ => true | _ => false end.

(** The generation banners and the cache edits: the skeleton of a run. *)
Definition is_milestone (e : Event) : bool := is_gen_banner e || is_cache_edit e.

(** The call that removes the first image. *)
Definition is_seq_rm (e : Event) : bool :=
  match e with EvSeqRm _ _ _ => true | _ => false end.

(** The number of places of [s] at which [pat] starts. *)
Fixpoint occurrences (pat s : string) : nat :=
  match s with
  | EmptyString => O
  | String _ s' => ((if String.prefix pat s then 1 else 0) + occurrences pat s')%nat
  end.

(** The marker of an image in a prompt, [mtmd_default_marker()]. *)
Definition media_marker : string := "<__media__>".

(** The loads of a bitmap and the tokenization. *)
Definition is_image_call (e : Event) : bool :=
  match e with EvBitmapInit _ _ | EvTokenize _ _ _ => true | _ => false end.

Definition is_tokenize (e : Event) : bool :=
  match e with EvTokenize _ _ _ => true | _ => false end.

(** Taking one handle out of the handles held; [None] when it is not held. *)
Fixpoint remove_first (r : Resource) (held : list Resource) : option (list Resource) :=
  match held with
  | [] => None
  | r' :: held' =>
      if decide (r = r') then Some held'
      else match remove_first r held' with
           | Some rest => Some (r' :: rest)
           | None => None
           end
  end.

(** The handles held after a trace, from the handles held before it;
    [None] when the trace releases a handle that is not held. *)
Fixpoint held_after (held : list Resource) (t : list Event) : option (list Resource) :=
  match t with
  | [] => Some held
  | EvAcquire r :: t' => held_after (r :: held) t'
  | EvRelease r :: t' =>
      match remove_first r held with
      | Some rest => held_after rest t'
      | None => None
      end
  | _ :: t' => held_after held t'
  end.

(** The acquisitions and releases of handles. *)
Definition is_resource_event (e : Event) : bool :=
  match e with EvAcquire _ | EvRelease _ => true | _ => false end.

Definition acquires (r : Resource) (e : Event) : bool :=
  match e with EvAcquire r' => bool_decide (r = r') | _ => false end.

(** The calls of common_sampler_accept and of fflush. *)
Definition is_accept (e : Event) : bool :=
  match e with EvAccept _ => true | _ => false end.

Definition is_flush (e : Event) : bool :=
  match e with EvFlush => true | _ => false end.

(** The two markers that tell why a pass was cut short. *)
Definition eos_marker : string := " [EOS]".
Definition failed_marker : string := " [DECODE_FAILED]".

(** The entries given to common_batch_add, in order. *)
Fixpoint added_entries (t : list Event) : list BatchEntry :=
  match t with
  | [] => []
  | EvBatchAdd en :: t' => en :: added_entries t'
  | _ :: t' => added_entries t'
  end.

(** The batches given to llama_decode, in order. *)
Fixpoint decode_batches (t : list Event) : list (list BatchEntry) :=
  match t with
  | [] => []
  | EvDecode b _ :: t' => b :: decode_batches t'
  | _ :: t' => decode_batches t'
  end.

(** [k] consecutive values of the position counter, from [n_pos] on. *)
Fixpoint positions (n_pos : Z) (k : nat) : list Z :=
  match k with
  | O => []
  | S k' => n_pos :: positions (next_pos n_pos) k'
  end.

(** The events of a run other than its prints, flushes and throws: the
    calls into the libraries that change or load something, common_init and
    the creation of the gguf context among them, and the handles taken and
    given back.  (The two queries of get_model_arch on its gguf context,
    gguf_find_key and gguf_get_val_str, are read-only and leave no event.) *)
Definition is_call (e : Event) : bool :=
  match e with
  | EvPrint _ _ _ | EvFlush | EvThrow _ => false
  | _ => true
  end.

Definition is_bitmap_init (e : Event) : bool :=
  match e with EvBitmapInit _ _ => true | _ => false end.

Definition is_eval (e : Event) : bool :=
  match e with EvEvalChunks _ _ _ => true | _ => false end.

(** The positions the runtime reports to main: the end of the prompt and
    the largest cached position. *)
Definition is_report (e : Event) : bool :=
  match e with EvEvalChunks _ _ _ | EvSeqPosMax _ _ => true | _ => false end.

(** ** The generation loop, step by step *)

Section Vocabulary.

Context {Ω : Type} (rt : Runtime Ω).

(** The events every iteration starts with: the sampler calls and the
    print of the token's text. *)
Definition sampled_events (tok : Z) : list Event :=
  [EvSample tok; EvAccept tok;
   EvPrint Stdout "%s" [AStr (common_token_to_piece rt tok)]; EvFlush].

(** The three ways through the loop body. *)
Inductive BodyStep (n_pos : Z) (batch : list BatchEntry) (m : Machine Ω)
  : Flow → Z → list BatchEntry → Machine Ω → list Event → Prop :=
  | BodyEog tok l1 :
      common_sampler_sample rt (lib m) = (tok, l1) →
      llama_vocab_is_eog rt tok = true →
      BodyStep n_pos batch m Break n_pos batch
        (MkMachine (common_sampler_accept rt tok l1) (scope m))
        (sampled_events tok ++ [EvPrint Stdout " [EOS]" []])
  | BodyDecodeFailed tok l1 rc l2 :
      common_sampler_sample rt (lib m) = (tok, l1) →
      llama_vocab_is_eog rt tok = false →
      llama_decode rt [entry_of tok n_pos] (common_sampler_accept rt tok l1) = (rc, l2) →
      rc ≠ 0 →
      BodyStep n_pos batch m Break (wrap32 (n_pos + 1)) [entry_of tok n_pos]
        (MkMachine l2 (scope m))
        (sampled_events tok ++ submit_events tok n_pos rc
           ++ [EvPrint Stdout " [DECODE_FAILED]" []])
  | BodyDecoded tok l1 l2 :
      common_sampler_sample rt (lib m) = (tok, l1) →
      llama_vocab_is_eog rt tok = false →
      llama_decode rt [entry_of tok n_pos] (common_sampler_accept rt tok l1) = (0, l2) →
      BodyStep n_pos batch m Next (wrap32 (n_pos + 1)) [entry_of tok n_pos]
        (MkMachine l2 (scope m))
        (sampled_events tok ++ submit_events tok n_pos 0).

(** No end-of-generation token is put in a batch or decoded. *)
Definition no_eog_submitted (e : Event) : Prop :=
  match e with
  | EvBatchAdd en => llama_vocab_is_eog rt (be_token en) = false
  | EvDecode b _ => Forall (λ en, llama_vocab_is_eog rt (be_token en) = false) b
  | _ => True
  end.

(** After the first end-of-generation token, nothing is sampled, batched
    or decoded any more. *)
Fixpoint stops_at_eog (t : list Event) : bool :=
  match t with
  | [] => true
  | EvSample tok :: t' =>
      if llama_vocab_is_eog rt tok then forallb quiet t' else stops_at_eog t'
  | _ :: t' => stops_at_eog t'
  end.

(** The events of the loop of a pass. *)
Definition pass_body (n_pos count : Z) (m : Machine Ω) : list Event :=
  trace (gen_loop rt (S (Z.to_nat count)) count 0 n_pos [] m).

End Vocabulary.

(** ** The shape of the runs of main *)

Section MainRuns.

Context {Ω : Type} (rt : Runtime Ω) (argv : list string).

Definition model_path : string := argv_at argv 1.
Definition mmproj_path : string := argv_at argv 2.

(** What [get_model_arch] finds in the model file. *)
Definition key_id : Z := gguf_find_key rt model_path "general.architecture".
Definition model_arch : string := gguf_get_val_str rt model_path key_id.

(** The runtime after the model and the vision projector are loaded. *)
Definition loaded (l : LibState Ω) : LibState Ω :=
  mtmd_init_from_file rt mmproj_path 6 (common_init_from_params rt model_path 1024 l).

Definition usage_events : list Event :=
  [EvPrint Stdout ("Usage: %s <model_path> <mmproj_path>" +:+ LF) [AStr (argv_at argv 0)]].

Definition arch_events : list Event :=
  [EvCommonInit; EvAcquire RGguf; EvRelease RGguf;
   EvPrint Stdout ("Model architecture: %s" +:+ LF) [AStr model_arch]].

Definition load_events : list Event :=
  [EvInitFromParams model_path 1024; EvAcquire RModel; EvAcquire RContext;
   EvMtmdInit mmproj_path 6; EvAcquire RMtmd].

Definition bitmap_events (img : option Handle) : list Event :=
  EvBitmapInit (DICE_IMAGE_PATH rt) img
    :: match img with Some h => [EvAcquire (RBitmap h)] | None => [] end.

Definition bitmap_scope (img : option Handle) : list Resource :=
  match img with Some h => [RBitmap h] | None => [] end.

Definition tokenize_events (prompt : string) (h1 h2 : Handle) (rc : Z) : list Event :=
  [EvBuildPrompt model_arch; EvAcquire RChunks; EvTokenize prompt [h1; h2] rc].

Definition eval_events (rc n_pos : Z) : list Event :=
  [EvPrint Stdout ("Evaluating prompt with 2 images..." +:+ LF) [];
   EvEvalChunks 0 rc n_pos].

(** The wrappers of [main] that are alive once the prompt is tokenized,
    the youngest first. *)
Definition main_scope (h1 h2 : Handle) : list Resource :=
  [RChunks; RBitmap h2; RBitmap h1; RMtmd; RContext; RModel].

(** Every run of [main] is one of these seven. *)
Inductive MainRun (argc : Z) (l : LibState Ω)
  : Result () * Machine Ω * list Event → Prop :=
  | RunUsage :
      argc ≠ 3 →
      MainRun argc l (Exit 1, boot l, usage_events)
  | RunNoKey :
      argc = 3 →
      key_id < 0 →
      MainRun argc l
        (Throw "Architecture key not found",
         MkMachine l (if unwinds_uncaught rt then [] else [RGguf]),
         EvCommonInit :: EvAcquire RGguf :: EvThrow "Architecture key not found"
           :: (if unwinds_uncaught rt then [EvRelease RGguf] else []))
  | RunUnsupported :
      argc = 3 →
      0 ≤ key_id →
      supported model_arch = false →
      MainRun argc l
        (Exit 1, boot l,
         arch_events
           ++ [EvPrint Stderr ("Only qwen3vl and gemma3 are supported" +:+ LF) []])
  | RunImageFailed img1 l1 img2 l2 :
      argc = 3 →
      0 ≤ key_id →
      supported model_arch = true →
      mtmd_helper_bitmap_init_from_file rt (DICE_IMAGE_PATH rt) (loaded l) = (img1, l1) →
      mtmd_helper_bitmap_init_from_file rt (DICE_IMAGE_PATH rt) l1 = (img2, l2) →
      img1 = None ∨ img2 = None →
      MainRun argc l
        (Exit 1, boot l2,
         arch_events ++ load_events ++ bitmap_events img1 ++ bitmap_events img2
           ++ [EvPrint Stdout ("Failed to load image" +:+ LF) []]
           ++ (EvRelease <$> bitmap_scope img2 ++ bitmap_scope img1
                               ++ [RMtmd; RContext; RModel]))
  | RunTokenizeFailed h1 l1 h2 l2 prompt rc l3 :
      argc = 3 →
      0 ≤ key_id →
      supported model_arch = true →
      mtmd_helper_bitmap_init_from_file rt (DICE_IMAGE_PATH rt) (loaded l) = (Some h1, l1) →
      mtmd_helper_bitmap_init_from_file rt (DICE_IMAGE_PATH rt) l1 = (Some h2, l2) →
      build_prompt model_arch = inl prompt →
      mtmd_tokenize rt prompt [h1; h2] l2 = (rc, l3) →
      rc ≠ 0 →
      MainRun argc l
        (Exit 1, boot l3,
         arch_events ++ load_events ++ bitmap_events (Some h1) ++ bitmap_events (Some h2)
           ++ tokenize_events prompt h1 h2 rc
           ++ [EvPrint Stdout ("Tokenization failed" +:+ LF) []]
           ++ (EvRelease <$> main_scope h1 h2))
  | RunEvalFailed h1 l1 h2 l2 prompt l3 rc n_pos l4 :
      argc = 3 →
      0 ≤ key_id →
      supported model_arch = true →
      mtmd_helper_bitmap_init_from_file rt (DICE_IMAGE_PATH rt) (loaded l) = (Some h1, l1) →
      mtmd_helper_bitmap_init_from_file rt (DICE_IMAGE_PATH rt) l1 = (Some h2, l2) →
      build_prompt model_arch = inl prompt →
      mtmd_tokenize rt prompt [h1; h2] l2 = (0, l3) →
      mtmd_helper_eval_chunks rt 0 l3 = (rc, n_pos, l4) →
      rc ≠ 0 →
      MainRun argc l
        (Exit 1, boot l4,
         arch_events ++ load_events ++ bitmap_events (Some h1) ++ bitmap_events (Some h2)
           ++ tokenize_events prompt h1 h2 0
           ++ eval_events rc n_pos
           ++ [EvPrint Stdout ("Evaluation failed" +:+ LF) []]
           ++ (EvRelease <$> main_scope h1 h2))
  | RunShifted h1 l1 h2 l2 prompt l3 n0 l4 n1 m1 n2 m2 n3 m3 t2 :
      argc = 3 →
      0 ≤ key_id →
      supported model_arch = true →
      mtmd_helper_bitmap_init_from_file rt (DICE_IMAGE_PATH rt) (loaded l) = (Some h1, l1) →
      mtmd_helper_bitmap_init_from_file rt (DICE_IMAGE_PATH rt) l1 = (Some h2, l2) →
      build_prompt model_arch = inl prompt →
      mtmd_tokenize rt prompt [h1; h2] l2 = (0, l3) →
      mtmd_helper_eval_chunks rt 0 l3 = (0, n0, l4) →
      let m0 := MkMachine (common_sampler_init rt l4) (main_scope h1 h2) in
      let pass1 := pass_body rt n0 5 m0 in
      let pass2 := pass_body rt n2 50 m2 in
      generate_tokens rt n0 5 "Before cache shift" m0
      = (Ok n1, m1,
         gen_banner "Before cache shift" :: EvAcquire RBatch :: pass1
           ++ [EvRelease RBatch; EvPrint Stdout LF []]) →
      n1 = Nat.iter (tally is_decode pass1) next_pos n0 →
      scope m1 = main_scope h1 h2 →
      cache_shift model_arch m1 = (Ok n2, m2, t2) →
      generate_tokens rt n2 50 "After cache shift" m2
      = (Ok n3, m3,
         gen_banner "After cache shift" :: EvAcquire RBatch :: pass2
           ++ [EvRelease RBatch; EvPrint Stdout LF []]) →
      n3 = Nat.iter (tally is_decode pass2) next_pos n2 →
      MainRun argc l
        (Exit 0, boot (lib m3),
         arch_events ++ load_events ++ bitmap_events (Some h1) ++ bitmap_events (Some h2)
           ++ tokenize_events prompt h1 h2 0
           ++ eval_events 0 n0
           ++ [EvPrint Stdout ("Position after mtmd evaluation: %d" +:+ LF) [AInt n0];
               EvAcquire RSampler]
           ++ (gen_banner "Before cache shift" :: EvAcquire RBatch :: pass1
                 ++ [EvRelease RBatch; EvPrint Stdout LF []])
           ++ t2
           ++ (gen_banner "After cache shift" :: EvAcquire RBatch :: pass2
                 ++ [EvRelease RBatch; EvPrint Stdout LF []])
           ++ [EvRelease RSampler]
           ++ (EvRelease <$> main_scope h1 h2)).

End MainRuns.

(** ** One iteration of the generation loop *)

Section Generation.

Context {Ω : Type} (rt : Runtime Ω).

Lemma gen_body_step n_pos batch m :
  ∃ flow n_pos' batch' m' t,
    gen_body rt n_pos batch m = (Ok (flow, n_pos', batch'), m', t)
    ∧ BodyStep rt n_pos batch m flow n_pos' batch' m' t.
Proof.
  unfold gen_body, bind, call, call_, emit, printf, pure. simpl.
  destruct (common_sampler_sample rt (lib m)) as [tok l1] eqn:Hs. simpl.
  destruct (llama_vocab_is_eog rt tok) eqn:Heog; simpl.
  - eexists _, _, _, _, _. split; [reflexivity|].
    eapply BodyEog; eauto.
  - destruct (llama_decode rt [entry_of tok n_pos] (common_sampler_accept rt tok l1))
      as [rc l2] eqn:Hd.
    unfold entry_of in Hd. rewrite Hd. simpl.
    destruct (rc =? 0) eqn:Hrc; simpl.
    + apply Z.eqb_eq in Hrc. subst rc.
      eexists _, _, _, _, _. split; [reflexivity|].
      eapply BodyDecoded; eauto.
    + apply Z.eqb_neq in Hrc.
      eexists _, _, _, _, _. split; [reflexivity|].
      eapply BodyDecodeFailed; eauto.
Qed.

(** *** The loop, case by case *)

(** An induction principle that follows the loop: out of fuel, test false,
    body left by [break], body followed by the next round. *)
Lemma gen_loop_cases (count : Z)
    (P : nat → Z → Z → Machine Ω → Result Z * Machine Ω * list Event → Prop) :
  (∀ i n_pos m, P O i n_pos m (OutOfFuel, m, [])) →
  (∀ fuel i n_pos m, ¬ i < count → P (S fuel) i n_pos m (Ok n_pos, m, [])) →
  (∀ fuel i n_pos batch m n_pos' batch' m' t,
      i < count →
      BodyStep rt n_pos batch m Break n_pos' batch' m' t →
      P (S fuel) i n_pos m (Ok n_pos', m', t ++ [])) →
  (∀ fuel i n_pos batch m n_pos' batch' m' t r m'' t',
      i < count →
      BodyStep rt n_pos batch m Next n_pos' batch' m' t →
      gen_loop rt fuel count (wrap32 (i + 1)) n_pos' batch' m' = (r, m'', t') →
      P fuel (wrap32 (i + 1)) n_pos' m' (r, m'', t') →
      P (S fuel) i n_pos m (r, m'', t ++ t')) →
  ∀ fuel i n_pos batch m, P fuel i n_pos m (gen_loop rt fuel count i n_pos batch m).
Proof.
  intros Hfuel Hexit Hbreak Hnext.
  induction fuel as [|fuel IH]; intros i n_pos batch m; simpl.
  - apply Hfuel.
  - destruct (i <? count) eqn:Hlt.
    + apply Z.ltb_lt in Hlt.
      destruct (gen_body_step n_pos batch m)
        as (flow & n_pos' & batch' & m' & t & Hbody & Hstep).
      unfold bind at 1. rewrite Hbody.
      destruct flow.
      * specialize (IH (wrap32 (i + 1)) n_pos' batch' m').
        destruct (gen_loop rt fuel count (wrap32 (i + 1)) n_pos' batch' m')
          as [[r m''] t'] eqn:Hloop.
        eapply Hnext; eauto.
      * unfold pure. eapply Hbreak; eauto.
    + apply Z.ltb_ge in Hlt. unfold pure. apply Hexit. lia.
Qed.

End Generation.

(** ** Counting events *)

Lemma tally_app p t1 t2 : tally p (t1 ++ t2) = (tally p t1 + tally p t2)%nat.
Proof. induction t1 as [|e t1 IH]; simpl; [done|]. rewrite IH. lia. Qed.

Lemma tally_none p t : Forall (λ e, p e = false) t → tally p t = O.
Proof. induction 1 as [|e t He _ IH]; simpl; [done|]. by rewrite He, IH. Qed.

Lemma tally_zero_Forall p t : tally p t = O → Forall (λ e, p e = false) t.
Proof.
  induction t as [|e t IH]; simpl; intros H; constructor.
  - destruct (p e); [lia|done].
  - apply IH. lia.
Qed.

Lemma wrap32_small z : in_int32 z → wrap32 z = z.
Proof.
  unfold in_int32, wrap32. intros H.
  rewrite Z.mod_small; lia.
Qed.

Section GenerationFacts.

Context {Ω : Type} (rt : Runtime Ω).

Lemma BodyStep_loop_events n_pos batch m flow n_pos' batch' m' t :
  BodyStep rt n_pos batch m flow n_pos' batch' m' t →
  Forall (λ e, loop_event e = true) t.
Proof. destruct 1; repeat constructor. Qed.

Lemma BodyStep_scope n_pos batch m flow n_pos' batch' m' t :
  BodyStep rt n_pos batch m flow n_pos' batch' m' t → scope m' = scope m.
Proof. by destruct 1. Qed.

(** Every iteration samples once and prints once; it decodes at most once,
    and moves the position counter exactly when it decodes. *)
Lemma BodyStep_counts n_pos batch m flow n_pos' batch' m' t :
  BodyStep rt n_pos batch m flow n_pos' batch' m' t →
  tally is_sample t = 1%nat ∧ tally is_token_print t = 1%nat
  ∧ tally is_batch_add t = tally is_decode t
  ∧ (tally is_decode t ≤ 1)%nat
  ∧ n_pos' = Nat.iter (tally is_decode t) next_pos n_pos
  ∧ (flow = Next → tally is_decode t = 1%nat).
Proof. destruct 1; simpl; repeat split; (done || lia). Qed.

Lemma gen_loop_loop_events fuel count i n_pos batch m :
  Forall (λ e, loop_event e = true) (trace (gen_loop rt fuel count i n_pos batch m)).
Proof.
  apply (gen_loop_cases rt count (λ _ _ _ _ r, Forall (λ e, loop_event e = true) (trace r)));
    unfold trace; simpl; intros.
  - constructor.
  - constructor.
  - rewrite app_nil_r. eapply BodyStep_loop_events; eauto.
  - apply Forall_app. split; [eapply BodyStep_loop_events; eauto | done].
Qed.

Lemma gen_loop_scope fuel count i n_pos batch m :
  scope (final (gen_loop rt fuel count i n_pos batch m)) = scope m.
Proof.
  apply (gen_loop_cases rt count (λ _ _ _ m r, scope (final r) = scope m));
    unfold final; simpl; intros; try done.
  - eapply BodyStep_scope; eauto.
  - etrans; [eassumption|]. eapply BodyStep_scope; eauto.
Qed.

(** The loop never returns from [main] and never throws. *)
Lemma gen_loop_result fuel count i n_pos batch m :
  result (gen_loop rt fuel count i n_pos batch m) = OutOfFuel
  ∨ ∃ n_pos', result (gen_loop rt fuel count i n_pos batch m) = Ok n_pos'.
Proof.
  apply (gen_loop_cases rt count
           (λ _ _ _ _ r, result r = OutOfFuel ∨ ∃ n_pos', result r = Ok n_pos'));
    unfold result; simpl; intros; eauto.
Qed.

(** The position counter moves once per decode. *)
Lemma gen_loop_positions fuel count i n_pos batch m n_pos' :
  result (gen_loop rt fuel count i n_pos batch m) = Ok n_pos' →
  n_pos' = Nat.iter (tally is_decode (trace (gen_loop rt fuel count i n_pos batch m)))
             next_pos n_pos.
Proof.
  revert n_pos'.
  apply (gen_loop_cases rt count
           (λ _ _ n_pos _ r, ∀ n_pos', result r = Ok n_pos' →
              n_pos' = Nat.iter (tally is_decode (trace r)) next_pos n_pos));
    unfold result, trace; simpl.
  - intros; discriminate.
  - intros; congruence.
  - intros ????????? _ Hstep ? [= <-].
    rewrite app_nil_r. by apply BodyStep_counts in Hstep as (_ & _ & _ & _ & ? & _).
  - intros ???????????? _ Hstep _ IH n' Hn'.
    apply BodyStep_counts in Hstep as (_ & _ & _ & _ & Hpos & _).
    rewrite tally_app, Nat.add_comm, Nat.iter_add, <- Hpos. by apply IH.
Qed.

Lemma gen_loop_adds fuel count i n_pos batch m :
  tally is_batch_add (trace (gen_loop rt fuel count i n_pos batch m))
  = tally is_decode (trace (gen_loop rt fuel count i n_pos batch m)).
Proof.
  apply (gen_loop_cases rt count
           (λ _ _ _ _ r, tally is_batch_add (trace r)
                         = tally is_decode (trace r)));
    unfold trace; simpl; try done.
  - intros ????????? _ Hstep. rewrite app_nil_r.
    by apply BodyStep_counts in Hstep as (_ & _ & ? & _).
  - intros ???????????? _ Hstep _ IH.
    apply BodyStep_counts in Hstep as (_ & _ & ? & _).
    rewrite !tally_app. lia.
Qed.

(** *** Termination and the iteration bound *)

(** With the loop variable at [i], the loop runs the body at most
    [count - i] times, and [count - i + 1] loop tests are enough. *)
Lemma gen_loop_bound count fuel i n_pos batch m :
  in_int32 count → -2147483648 ≤ i →
  (Z.to_nat (count - i) < fuel)%nat →
  let r := gen_loop rt fuel count i n_pos batch m in
  (∃ n_pos', result r = Ok n_pos')
  ∧ (tally is_sample (trace r) ≤ Z.to_nat (count - i))%nat
  ∧ tally is_token_print (trace r) = tally is_sample (trace r)
  ∧ (tally is_decode (trace r) ≤ tally is_sample (trace r))%nat.
Proof.
  intros Hcount Hi Hfuel. cbv zeta. revert Hi Hfuel. revert fuel i n_pos batch m.
  apply (gen_loop_cases rt count
           (λ fuel i _ _ r, -2147483648 ≤ i → (Z.to_nat (count - i) < fuel)%nat →
              (∃ n_pos', result r = Ok n_pos')
              ∧ (tally is_sample (trace r) ≤ Z.to_nat (count - i))%nat
              ∧ tally is_token_print (trace r) = tally is_sample (trace r)
              ∧ (tally is_decode (trace r) ≤ tally is_sample (trace r))%nat));
    unfold result, trace; simpl.
  - intros; lia.
  - intros. repeat split; eauto; lia.
  - intros ????????? Hlt Hstep Hi Hfuel. rewrite app_nil_r.
    apply BodyStep_counts in Hstep as (-> & -> & _ & ? & _).
    repeat split; eauto; lia.
  - intros ???????????? Hlt Hstep _ IH Hi Hfuel.
    apply BodyStep_counts in Hstep as (Hs & Hp & _ & ? & _).
    assert (wrap32 (i + 1) = i + 1) as Hw
      by (apply wrap32_small; unfold in_int32 in *; lia).
    rewrite Hw in IH.
    destruct IH as (Hok & ? & ? & ?); [lia | lia |].
    rewrite !tally_app, Hs, Hp.
    repeat split; [done | lia | lia | lia].
Qed.

(** Once the loop has finished, more fuel changes nothing. *)
Lemma gen_loop_fuel_mono fuel :
  ∀ fuel' count i n_pos batch m,
    (fuel ≤ fuel')%nat →
    result (gen_loop rt fuel count i n_pos batch m) ≠ OutOfFuel →
    gen_loop rt fuel' count i n_pos batch m = gen_loop rt fuel count i n_pos batch m.
Proof.
  induction fuel as [|fuel IH]; intros fuel' count i n_pos batch m Hle Hfin.
  - by destruct Hfin.
  - destruct fuel' as [|fuel']; [lia|]. simpl in *.
    destruct (i <? count); [|done].
    unfold bind in *.
    destruct (gen_body rt n_pos batch m) as [[[[[flow n_pos'] batch']| | |] m'] t]; try done.
    destruct flow; [|done].
    rewrite (IH fuel' count (wrap32 (i + 1)) n_pos' batch' m'); [done | lia |].
    destruct (gen_loop rt fuel count (wrap32 (i + 1)) n_pos' batch' m') as [[r m''] t'].
    exact Hfin.
Qed.

End GenerationFacts.

(** ** End-of-generation tokens *)

Section EndOfGeneration.

Context {Ω : Type} (rt : Runtime Ω).

Lemma stops_at_eog_split t t1 tok t2 :
  stops_at_eog rt t = true →
  t = t1 ++ EvSample tok :: t2 →
  llama_vocab_is_eog rt tok = true →
  Forall (λ e, quiet e = true) t2.
Proof.
  revert t. induction t1 as [|e t1 IH]; intros t Hstop -> Heog; simpl in Hstop.
  - rewrite Heog in Hstop.
    apply Forall_forall. intros x Hx.
    rewrite forallb_forall in Hstop. apply Hstop. by apply list_elem_of_In.
  - destruct e; try (eapply IH; eauto; fail).
    destruct (llama_vocab_is_eog rt tok0).
    + rewrite forallb_app in Hstop. simpl in Hstop.
      apply andb_true_iff in Hstop as [_ Hstop]. discriminate.
    + eapply IH; eauto.
Qed.

Lemma gen_loop_no_eog_submitted fuel count i n_pos batch m :
  Forall (no_eog_submitted rt) (trace (gen_loop rt fuel count i n_pos batch m)).
Proof.
  apply (gen_loop_cases rt count (λ _ _ _ _ r, Forall (no_eog_submitted rt) (trace r)));
    unfold trace; simpl; intros; try constructor.
  - rewrite app_nil_r.
    match goal with H : BodyStep _ _ _ _ _ _ _ _ _ |- _ => inversion H; subst end;
      repeat constructor; simpl; done.
  - apply Forall_app; split; [|done].
    match goal with H : BodyStep _ _ _ _ _ _ _ _ _ |- _ => inversion H; subst end;
      repeat constructor; simpl; done.
Qed.

Lemma gen_loop_stops_at_eog fuel count i n_pos batch m :
  stops_at_eog rt (trace (gen_loop rt fuel count i n_pos batch m)) = true.
Proof.
  apply (gen_loop_cases rt count (λ _ _ _ _ r, stops_at_eog rt (trace r) = true));
    unfold trace; simpl; intros; try done.
  - rewrite app_nil_r.
    match goal with H : BodyStep _ _ _ _ _ _ _ _ _ |- _ => inversion H; subst end;
      simpl;
      match goal with H : llama_vocab_is_eog _ _ = _ |- _ => rewrite H end; done.
  - match goal with H : BodyStep _ _ _ _ _ _ _ _ _ |- _ => inversion H; subst end.
    simpl.
    match goal with H : llama_vocab_is_eog _ _ = _ |- _ => rewrite H end; done.
Qed.

(** The iteration that samples an end-of-generation token: the body is
    left for the exit of the loop with the position counter and the batch
    as they were, and only the two sampler calls have touched the runtime.*)
Lemma gen_body_eog n_pos batch m tok l1 :
  common_sampler_sample rt (lib m) = (tok, l1) →
  llama_vocab_is_eog rt tok = true →
  gen_body rt n_pos batch m
  = (Ok (Break, n_pos, batch),
     MkMachine (common_sampler_accept rt tok l1) (scope m),
     sampled_events rt tok ++ [EvPrint Stdout " [EOS]" []]).
Proof.
  intros Hs Heog.
  unfold gen_body, bind, call, call_, emit, printf, pure. simpl.
  rewrite Hs. simpl. by rewrite Heog.
Qed.

(** The iteration whose decode fails: the marker is printed and the body
    is left for the exit of the loop. *)
Lemma gen_body_decode_failed n_pos batch m tok l1 rc l2 :
  common_sampler_sample rt (lib m) = (tok, l1) →
  llama_vocab_is_eog rt tok = false →
  llama_decode rt [entry_of tok n_pos] (common_sampler_accept rt tok l1) = (rc, l2) →
  rc ≠ 0 →
  gen_body rt n_pos batch m
  = (Ok (Break, wrap32 (n_pos + 1), [entry_of tok n_pos]),
     MkMachine l2 (scope m),
     sampled_events rt tok ++ submit_events tok n_pos rc
       ++ [EvPrint Stdout " [DECODE_FAILED]" []]).
Proof.
  intros Hs Heog Hd Hrc.
  unfold gen_body, bind, call, call_, emit, printf, pure. simpl.
  rewrite Hs. simpl. rewrite Heog. simpl.
  unfold entry_of in Hd. rewrite Hd. simpl.
  apply Z.eqb_neq in Hrc. by rewrite Hrc.
Qed.

End EndOfGeneration.

(** ** A generation pass as a whole *)

Section Pass.

Context {Ω : Type} (rt : Runtime Ω).

(** A pass over a count that fits an [int] runs to its end: the banner,
    the batch, the loop, the release of the batch and a line feed. *)
Lemma generate_tokens_pass n_pos count phase m :
  in_int32 count →
  ∃ n_pos' m',
    generate_tokens rt n_pos count phase m
    = (Ok n_pos', m',
       gen_banner phase :: EvAcquire RBatch :: pass_body rt n_pos count m
         ++ [EvRelease RBatch; EvPrint Stdout LF []])
    ∧ scope m' = scope m
    ∧ n_pos' = Nat.iter (tally is_decode (pass_body rt n_pos count m)) next_pos n_pos.
Proof.
  intros Hcount. unfold generate_tokens, pass_body.
  remember (S (Z.to_nat count)) as fuel eqn:Hfuel.
  destruct (gen_loop_bound rt count fuel 0 n_pos [] m Hcount)
    as ([n_pos' Hok] & _); [lia | lia |].
  pose proof (gen_loop_scope rt fuel count 0 n_pos [] m) as Hscope.
  pose proof (gen_loop_positions rt fuel count 0 n_pos [] m n_pos' Hok) as Hpos.
  destruct (gen_loop rt fuel count 0 n_pos [] m) as [[r m'] t] eqn:Hloop.
  unfold result, final, trace in *. simpl in *. subst r.
  exists n_pos', m'. split; [|done].
  unfold bind, printf, emit, pure. by rewrite Hloop.
Qed.

End Pass.

Arguments generate_tokens : simpl never.
Arguments pass_body : simpl never.
Arguments cache_shift : simpl never.

(** ** The cache shift of main *)

Section Shift.

Context {Ω : Type}.

Lemma cache_shift_run (arch : string) (m : Machine Ω) :
  cache_shift arch m
  = (Ok (wrap32 (KV.seq_pos_max (shifted arch (kv (lib m))) + 1)),
     MkMachine (MkLib (shifted arch (kv (lib m))) (opaque (lib m))) (scope m),
     shift_events arch (kv (lib m))).
Proof. reflexivity. Qed.

End Shift.

Section MainShape.

Context {Ω : Type} (rt : Runtime Ω).

Lemma supported_build_prompt arch :
  supported arch = true → ∃ prompt, build_prompt arch = inl prompt.
Proof.
  unfold supported, build_prompt. intros H.
  destruct (String.eqb arch "qwen3vl"); [eauto|].
  destruct (String.eqb arch "gemma3"); [eauto|done].
Qed.

Theorem main_shape argc argv l : MainRun rt argv argc l (run rt argc argv l).
Proof.
  unfold run, main.
  destruct (argc =? 3) eqn:Hargc; simpl.
  2:{ apply Z.eqb_neq in Hargc. by apply RunUsage. }
  apply Z.eqb_eq in Hargc.
  unfold get_model_arch, load_bitmap, call_build_prompt, throw, bind, call, call_, emit,
    printf, fprintf, own, disown, ret, pure; simpl.
  fold (model_path argv) (mmproj_path argv). fold (key_id rt argv). fold (model_arch rt argv).
  destruct (key_id rt argv <? 0) eqn:Hkey.
  { apply Z.ltb_lt in Hkey. destruct (unwinds_uncaught rt) eqn:Hunw; simpl.
    - pose proof (RunNoKey rt argv argc l Hargc Hkey) as H. by rewrite Hunw in H.
    - pose proof (RunNoKey rt argv argc l Hargc Hkey) as H. by rewrite Hunw in H. }
  apply Z.ltb_ge in Hkey. simpl.
  destruct (supported (model_arch rt argv)) eqn:Hsup.
  2:{ unfold supported in Hsup. apply orb_false_iff in Hsup as [Hq Hg].
      rewrite Hq, Hg. simpl.
      apply (RunUnsupported rt argv argc l Hargc Hkey).
      unfold supported. by rewrite Hq, Hg. }
  assert (negb (String.eqb (model_arch rt argv) "qwen3vl")
          && negb (String.eqb (model_arch rt argv) "gemma3") = false) as ->.
  { unfold supported in Hsup. destruct (String.eqb _ "qwen3vl"); [done|].
    simpl in *. by rewrite Hsup. }
  simpl. fold (loaded rt argv l).
  destruct (mtmd_helper_bitmap_init_from_file rt (DICE_IMAGE_PATH rt) (loaded rt argv l))
    as [img1 l1] eqn:Hb1.
  destruct img1 as [h1|]; simpl;
    (destruct (mtmd_helper_bitmap_init_from_file rt (DICE_IMAGE_PATH rt) l1)
       as [img2 l2] eqn:Hb2);
    destruct img2 as [h2|]; simpl.
  2:{ apply (RunImageFailed rt argv argc l (Some h1) l1 None l2); auto. }
  2:{ apply (RunImageFailed rt argv argc l None l1 (Some h2) l2); auto. }
  2:{ apply (RunImageFailed rt argv argc l None l1 None l2); auto. }
  destruct (supported_build_prompt _ Hsup) as [prompt Hprompt]. rewrite Hprompt. simpl.
  destruct (mtmd_tokenize rt prompt [h1; h2] l2) as [rc l3] eqn:Htok. simpl.
  destruct (rc =? 0) eqn:Hrc; simpl.
  2:{ apply Z.eqb_neq in Hrc.
      apply (RunTokenizeFailed rt argv argc l h1 l1 h2 l2 prompt rc l3); auto. }
  apply Z.eqb_eq in Hrc. subst rc.
  destruct (mtmd_helper_eval_chunks rt 0 l3) as [[rc n0] l4] eqn:Heval. simpl.
  destruct (rc =? 0) eqn:Hrc; simpl.
  2:{ apply Z.eqb_neq in Hrc.
      apply (RunEvalFailed rt argv argc l h1 l1 h2 l2 prompt l3 rc n0 l4); auto. }
  apply Z.eqb_eq in Hrc. subst rc.
  set (m0 := MkMachine (common_sampler_init rt l4) (main_scope h1 h2)).
  destruct (generate_tokens_pass rt n0 5 "Before cache shift" m0)
    as (n1 & m1 & Hg1 & Hs1 & Hn1); [unfold in_int32; lia|].
  change (MkMachine (common_sampler_init rt l4)
            [RChunks; RBitmap h2; RBitmap h1; RMtmd; RContext; RModel]) with m0.
  destruct m1 as [lib1 scope1]. simpl in Hs1. subst scope1.
  rewrite Hg1. simpl.
  pose (n2 := wrap32 (KV.seq_pos_max (shifted (model_arch rt argv) (kv lib1)) + 1)).
  pose (m2 := MkMachine (MkLib (shifted (model_arch rt argv) (kv lib1)) (opaque lib1))
                (main_scope h1 h2)).
  destruct (generate_tokens_pass rt n2 50 "After cache shift" m2)
    as (n3 & m3 & Hg2 & Hs2 & Hn2); [unfold in_int32; lia|].
  pose proof Hg2 as Hg2'. unfold n2, m2, shifted in Hg2'. rewrite Hg2'. simpl.
  rewrite Hs2. simpl.
  apply (RunShifted rt argv argc l h1 l1 h2 l2 prompt l3 n0 l4 n1
           (MkMachine lib1 (main_scope h1 h2)) n2 m2 n3 m3
           (shift_events (model_arch rt argv) (kv lib1))); auto.
Qed.

End MainShape.

(** ** Claims about generate_tokens *)

Section GenerateTokens.

Context {Ω : Type} (rt : Runtime Ω).

Lemma stops_at_eog_app t t' :
  stops_at_eog rt t = true → forallb quiet t' = true → stops_at_eog rt (t ++ t') = true.
Proof.
  intros Ht Ht'. induction t as [|e t IH]; simpl in *.
  - induction t' as [|e' t' IH']; simpl in *; [done|].
    apply andb_true_iff in Ht' as [He' Ht'].
    destruct e'; try (by apply IH'). discriminate.
  - destruct e; try (by apply IH).
    destruct (llama_vocab_is_eog rt tok); [|by apply IH].
    rewrite forallb_app. by rewrite Ht, Ht'.
Qed.

(** The round of the loop that samples an end-of-generation token is its
    last one. *)
Lemma gen_loop_eog fuel count i n_pos batch m tok l1 :
  i < count →
  common_sampler_sample rt (lib m) = (tok, l1) →
  llama_vocab_is_eog rt tok = true →
  gen_loop rt (S fuel) count i n_pos batch m
  = (Ok n_pos,
     MkMachine (common_sampler_accept rt tok l1) (scope m),
     sampled_events rt tok ++ [EvPrint Stdout " [EOS]" []]).
Proof.
  intros Hlt Hs Heog. simpl.
  apply Z.ltb_lt in Hlt. rewrite Hlt.
  unfold bind. by rewrite (gen_body_eog rt n_pos batch m tok l1 Hs Heog).
Qed.

(** The round of the loop whose decode fails is its last one. *)
Lemma gen_loop_decode_failed fuel count i n_pos batch m tok l1 rc l2 :
  i < count →
  common_sampler_sample rt (lib m) = (tok, l1) →
  llama_vocab_is_eog rt tok = false →
  llama_decode rt [entry_of tok n_pos] (common_sampler_accept rt tok l1) = (rc, l2) →
  rc ≠ 0 →
  gen_loop rt (S fuel) count i n_pos batch m
  = (Ok (wrap32 (n_pos + 1)),
     MkMachine l2 (scope m),
     sampled_events rt tok ++ submit_events tok n_pos rc
       ++ [EvPrint Stdout " [DECODE_FAILED]" []]).
Proof.
  intros Hlt Hs Heog Hd Hrc. simpl.
  apply Z.ltb_lt in Hlt. rewrite Hlt.
  unfold bind.
  rewrite (gen_body_decode_failed rt n_pos batch m tok l1 rc l2 Hs Heog Hd Hrc).
  unfold pure. by rewrite !app_nil_r.
Qed.

(** C6. In every call of generate_tokens: the round that samples an
    end-of-generation token leaves the loop at once, before any
    common_batch_add or llama_decode, with the position counter and the
    batch as they were and the runtime touched by the two sampler calls
    only; no end-of-generation token is ever added to a batch or decoded, so
    none reaches the cache; after such a token nothing is sampled, batched
    or decoded; every batched token is decoded; and the position counter the
    caller gets back is the one it passed, incremented once per call of
    llama_decode. *)
Theorem generate_tokens_eog_and_positions n_pos count phase m :
  in_int32 count →
  let r := generate_tokens rt n_pos count phase m in
  (∀ fuel i n b m' tok l1,
      i < count →
      common_sampler_sample rt (lib m') = (tok, l1) →
      llama_vocab_is_eog rt tok = true →
      gen_loop rt (S fuel) count i n b m'
      = (Ok n, MkMachine (common_sampler_accept rt tok l1) (scope m'),
         sampled_events rt tok ++ [EvPrint Stdout " [EOS]" []]))
  ∧ Forall (no_eog_submitted rt) (trace r)
  ∧ (∀ t1 tok t2,
        trace r = t1 ++ EvSample tok :: t2 →
        llama_vocab_is_eog rt tok = true →
        Forall (λ e, quiet e = true) t2)
  ∧ tally is_batch_add (trace r) = tally is_decode (trace r)
  ∧ result r = Ok (Nat.iter (tally is_decode (trace r)) next_pos n_pos).
Proof.
  intros Hcount r.
  destruct (generate_tokens_pass rt n_pos count phase m Hcount)
    as (n_pos' & m' & Hrun & _ & Hpos).
  subst r. rewrite Hrun. unfold trace, result. simpl.
  repeat split.
  - intros. by apply gen_loop_eog.
  - do 2 constructor; [done|]. apply Forall_app. split; [|by repeat constructor].
    apply gen_loop_no_eog_submitted.
  - intros t1 tok t2 Heq Heog.
    eapply stops_at_eog_split; [|exact Heq|exact Heog].
    simpl. apply stops_at_eog_app; [|done].
    apply gen_loop_stops_at_eog.
  - rewrite !tally_app. simpl. rewrite !Nat.add_0_r.
    apply gen_loop_adds.
  - rewrite tally_app. simpl. rewrite Nat.add_0_r. by rewrite Hpos.
Qed.

(** A pass ends: the loop is left through its test or a [break], never
    for lack of fuel; it runs its body, prints a token and calls
    llama_decode at most [count] times each. *)
Lemma generate_tokens_bounded n_pos count phase m :
  in_int32 count →
  let r := generate_tokens rt n_pos count phase m in
  (∃ n_pos', result r = Ok n_pos')
  ∧ (∀ fuel, (Z.to_nat count < fuel)%nat →
       ∃ n_pos', result (gen_loop rt fuel count 0 n_pos [] m) = Ok n_pos')
  ∧ (tally is_sample (trace r) ≤ Z.to_nat count)%nat
  ∧ (tally is_token_print (trace r) ≤ Z.to_nat count)%nat
  ∧ (tally is_decode (trace r) ≤ Z.to_nat count)%nat.
Proof.
  intros Hcount r.
  destruct (generate_tokens_pass rt n_pos count phase m Hcount)
    as (n_pos' & m' & Hrun & _ & _).
  destruct (gen_loop_bound rt count (S (Z.to_nat count)) 0 n_pos [] m Hcount)
    as (_ & Hs & Hp & Hd); [lia | lia |].
  rewrite Z.sub_0_r in Hs. fold (pass_body rt n_pos count m) in Hs, Hp, Hd.
  subst r. rewrite Hrun. unfold trace, result. simpl.
  rewrite !tally_app. simpl. rewrite !Nat.add_0_r.
  repeat split; [eauto | | lia | lia | lia].
  intros fuel Hfuel.
  destruct (gen_loop_bound rt count fuel 0 n_pos [] m Hcount) as (Hok & _);
    [lia | by rewrite Z.sub_0_r | done].
Qed.

End GenerateTokens.

(** ** Claims about main *)

Section PassCounts.

Context {Ω : Type} (rt : Runtime Ω).

(** What the loop never emits is absent from the body of a pass. *)
Lemma pass_body_tally p n_pos count m :
  (∀ e, loop_event e = true → p e = false) →
  tally p (pass_body rt n_pos count m) = O.
Proof.
  intros Hp. apply tally_none. unfold pass_body.
  eapply Forall_impl; [apply gen_loop_loop_events|]. exact Hp.
Qed.

Lemma loop_no_image_failure e : loop_event e = true → is_image_failure e = false.
Proof. by destruct e. Qed.

Lemma loop_no_tokenize_failure e : loop_event e = true → is_tokenize_failure e = false.
Proof. by destruct e. Qed.

Lemma loop_no_eval_failure e : loop_event e = true → is_eval_failure e = false.
Proof. by destruct e. Qed.

Lemma loop_no_eval_success e : loop_event e = true → is_eval_success e = false.
Proof. by destruct e. Qed.


End PassCounts.

Ltac unfold_events :=
  unfold usage_events, arch_events, load_events, bitmap_events, bitmap_scope,
    tokenize_events, eval_events, main_scope, shift_events, gen_banner in *.

(** Case analysis on a run of [main], with the shift made explicit. *)
Ltac main_cases rt argc argv l :=
  let Hshape := fresh "Hshape" in
  let r := fresh "r" in
  let Hr := fresh "Hr" in
  pose proof (main_shape rt argc argv l) as Hshape;
  remember (run rt argc argv l) as r eqn:Hr; clear Hr;
  destruct Hshape as
    [ Hargc
    | Hargc Hkey
    | Hargc Hkey Hsup
    | img1 l1 img2 l2 Hargc Hkey Hsup Hb1 Hb2 Himg
    | h1 l1 h2 l2 prompt rc l3 Hargc Hkey Hsup Hb1 Hb2 Hprompt Htok Hrc
    | h1 l1 h2 l2 prompt l3 rc n_pos l4 Hargc Hkey Hsup Hb1 Hb2 Hprompt Htok Heval Hrc
    | h1 l1 h2 l2 prompt l3 n0 l4 n1 m1 n2 m2 n3 m3 t2
        Hargc Hkey Hsup Hb1 Hb2 Hprompt Htok Heval m0 pass1 pass2 Hg1 Hn1 Hs1 Hshift Hg2 Hn2 ];
  [ | | | | | | rewrite cache_shift_run in Hshift; injection Hshift as Hn2' Hm2 Ht2 ].

(** Counting over the explicit part of a trace. *)
Ltac tally_events :=
  unfold_events; unfold trace, result, outcome_of in *; simpl in *;
  repeat progress (rewrite ?tally_app in *; simpl in * ).

Section ExitCodes.

Context {Ω : Type} (rt : Runtime Ω).

(** C2, as the code has it. A run with an argument count other than 3
    exits with code 1. A run with three arguments whose model file lacks
    the general.architecture key ends in an uncaught exception: main
    returns no exit code. Every other run exits with code 1 when the
    architecture is neither qwen3vl nor gemma3, when a bitmap failed to
    load, when mtmd_tokenize failed or when mtmd_helper_eval_chunks
    failed, and with code 0 when none of these happened. *)
Theorem exit_codes argc argv l :
  let tr := trace (run rt argc argv l) in
  (argc ≠ 3 → exit_status rt argc argv l = Exited 1)
  ∧ (argc = 3 → key_id rt argv < 0 →
       exit_status rt argc argv l = Aborted "Architecture key not found")
  ∧ (argc = 3 → 0 ≤ key_id rt argv →
       supported (model_arch rt argv) = false
       ∨ (0 < tally is_image_failure tr)%nat
       ∨ (0 < tally is_tokenize_failure tr)%nat
       ∨ (0 < tally is_eval_failure tr)%nat →
       exit_status rt argc argv l = Exited 1)
  ∧ (argc = 3 → 0 ≤ key_id rt argv →
       supported (model_arch rt argv) = true →
       tally is_image_failure tr = O →
       tally is_tokenize_failure tr = O →
       tally is_eval_failure tr = O →
       exit_status rt argc argv l = Exited 0).
Proof.
  unfold exit_status.
  main_cases rt argc argv l; unfold trace, result, outcome_of; simpl.
  - repeat split; intros; (done || lia).
  - repeat split; intros; (done || lia).
  - repeat split; intros; (done || congruence || lia).
  - repeat split; intros; try (done || lia).
    exfalso. destruct Himg; subst; tally_events; lia.
  - repeat split; intros; try (done || lia).
    exfalso. apply Z.eqb_neq in Hrc. tally_events. rewrite Hrc in *. simpl in *. lia.
  - repeat split; intros; try (done || lia).
    exfalso. apply Z.eqb_neq in Hrc. tally_events. rewrite Hrc in *. simpl in *. lia.
  - subst t2 pass1 pass2.
    pose proof (pass_body_tally rt is_image_failure n0 5 m0 loop_no_image_failure).
    pose proof (pass_body_tally rt is_image_failure n2 50 m2 loop_no_image_failure).
    pose proof (pass_body_tally rt is_tokenize_failure n0 5 m0 loop_no_tokenize_failure).
    pose proof (pass_body_tally rt is_tokenize_failure n2 50 m2 loop_no_tokenize_failure).
    pose proof (pass_body_tally rt is_eval_failure n0 5 m0 loop_no_eval_failure).
    pose proof (pass_body_tally rt is_eval_failure n2 50 m2 loop_no_eval_failure).
    repeat split; intros; try (done || lia).
    exfalso. tally_events.
    repeat match goal with H : _ ∨ _ |- _ => destruct H end; (congruence || lia).
Qed.

End ExitCodes.

(** ** The shift in the trace of main *)

Lemma loop_no_milestone e : loop_event e = true → is_milestone e = false.
Proof.
  destruct e; try done. unfold is_milestone. simpl.
  destruct out; [|done].
  intros H. rewrite orb_false_r.
  destruct args as [|[s|z] [|??]]; try done.
  repeat (apply orb_true_iff in H as [H|H]);
    apply String.eqb_eq in H; subst fmt; reflexivity.
Qed.

Section Filter.

Context {Ω : Type} (rt : Runtime Ω).

Lemma filter_none (p : Event → bool) t :
  Forall (λ e, p e = false) t → List.filter p t = [].
Proof. induction 1 as [|e t He _ IH]; simpl; [done|]. by rewrite He. Qed.

Lemma pass_body_filter p n_pos count m :
  (∀ e, loop_event e = true → p e = false) →
  List.filter p (pass_body rt n_pos count m) = [].
Proof.
  intros Hp. apply filter_none. unfold pass_body.
  eapply Forall_impl; [apply gen_loop_loop_events|]. exact Hp.
Qed.

End Filter.

Ltac filter_events :=
  unfold_events; unfold trace, result, outcome_of in *; simpl in *;
  repeat progress (rewrite ?List.filter_app in *; simpl in * ).

Section ShiftTrace.

Context {Ω : Type} (rt : Runtime Ω).

Lemma supported_cases arch :
  supported arch = true →
  arch = "qwen3vl" ∧ first_image_npos arch = 3
  ∨ arch = "gemma3" ∧ first_image_npos arch = 258.
Proof.
  unfold supported, first_image_npos. intros H.
  destruct (String.eqb arch "qwen3vl") eqn:Hq.
  - left. by apply String.eqb_eq in Hq.
  - right. simpl in H. by apply String.eqb_eq in H.
Qed.

Lemma elem_of_seq_rm p0 p1 c p : p ∈ KV.seq_rm p0 p1 c ↔ p ∈ c ∧ ¬ (p0 ≤ p < p1).
Proof. unfold KV.seq_rm. rewrite elem_of_filter. tauto. Qed.

Lemma elem_of_seq_add_open p0 delta c q :
  q ∈ KV.seq_add p0 (-1) delta c
  ↔ ∃ p, p ∈ c ∧ q = if decide (p0 ≤ p) then p + delta else p.
Proof.
  unfold KV.seq_add. rewrite elem_of_map. split.
  - intros (p & -> & Hp). exists p. split; [done|].
    repeat case_decide; (done || lia).
  - intros (p & Hp & ->). exists p. split; [|done].
    repeat case_decide; (done || lia).
Qed.

(** C1. In every run that gets past the prompt evaluation (the runs that
    exit with code 0), the first image takes n = 3 positions for
    architecture qwen3vl and n = 258 for gemma3, and between the banner of
    the first generation pass and the banner of the second the program
    edits the cache exactly twice: it first removes the positions
    [3, 3 + n) of sequence 0 and then adds -n to every position from 3 + n
    on. On the cache the removal takes away exactly the positions of
    [3, 3 + n), and the shift moves every position >= 3 + n back by n and
    leaves the others. A run that ends otherwise never edits the cache. *)
Theorem shift_removes_first_image argc argv l :
  let tr := trace (run rt argc argv l) in
  let arch := model_arch rt argv in
  let n := first_image_npos arch in
  (exit_status rt argc argv l = Exited 0 →
     (arch = "qwen3vl" ∧ n = 3 ∨ arch = "gemma3" ∧ n = 258)
     ∧ List.filter is_milestone tr
       = [gen_banner "Before cache shift";
          EvSeqRm 0 3 (3 + n);
          EvSeqAdd 0 (3 + n) (-1) (- n);
          gen_banner "After cache shift"])
  ∧ (exit_status rt argc argv l ≠ Exited 0 → List.filter is_cache_edit tr = [])
  ∧ (∀ m : Machine Ω,
       kv (lib (final (cache_shift arch m)))
       = KV.seq_add (3 + n) (-1) (- n) (KV.seq_rm 3 (3 + n) (kv (lib m))))
  ∧ (∀ c p, p ∈ KV.seq_rm 3 (3 + n) c ↔ p ∈ c ∧ ¬ (3 ≤ p < 3 + n))
  ∧ (∀ c q, q ∈ KV.seq_add (3 + n) (-1) (- n) c
            ↔ ∃ p, p ∈ c ∧ q = if decide (3 + n ≤ p) then p - n else p).
Proof.
  intros tr arch n.
  cut ((exit_status rt argc argv l = Exited 0 →
          (arch = "qwen3vl" ∧ n = 3 ∨ arch = "gemma3" ∧ n = 258)
          ∧ List.filter is_milestone tr
            = [gen_banner "Before cache shift";
               EvSeqRm 0 3 (3 + n);
               EvSeqAdd 0 (3 + n) (-1) (- n);
               gen_banner "After cache shift"])
       ∧ (exit_status rt argc argv l ≠ Exited 0 → List.filter is_cache_edit tr = [])).
  { intros [H1 H2]. split; [exact H1|]. split; [exact H2|]. split; [done|].
    split; [intros; apply elem_of_seq_rm | intros; apply elem_of_seq_add_open]. }
  subst tr arch n. unfold exit_status.
  main_cases rt argc argv l; unfold trace, result, outcome_of; simpl.
  - split; [done|]. by intros _.
  - split; [done|]. intros _. by destruct (unwinds_uncaught rt).
  - split; [done|]. by intros _.
  - split; [done|]. intros _. by destruct img1, img2.
  - split; [done|]. by intros _.
  - split; [done|]. by intros _.
  - split; [|done]. intros _.
    split; [by apply supported_cases|].
    subst t2 pass1 pass2. filter_events.
    rewrite !(pass_body_filter rt is_milestone _ _ _ loop_no_milestone). done.
Qed.

End ShiftTrace.

(** ** The shift on a contiguous cache *)

Section ShiftCache.

Context {Ω : Type}.

Lemma elem_of_range N p : p ∈ KV.range N ↔ 0 ≤ p < N.
Proof.
  unfold KV.range. rewrite elem_of_list_to_set, elem_of_seqZ. lia.
Qed.

Lemma foldr_max_bounds (d : Z) (xs : list Z) :
  d ≤ foldr Z.max d xs
  ∧ (∀ x, x ∈ xs → x ≤ foldr Z.max d xs)
  ∧ (foldr Z.max d xs = d ∨ foldr Z.max d xs ∈ xs).
Proof.
  induction xs as [|x xs (IHd & IHle & IHin)]; simpl.
  - split; [lia|]. split; [|by left]. intros x Hx. by apply elem_of_nil in Hx.
  - split; [lia|]. split.
    + intros y [->|Hy]%elem_of_cons; [lia|]. specialize (IHle y Hy). lia.
    + destruct (Z.max_spec x (foldr Z.max d xs)) as [[_ ->]|[_ ->]].
      * destruct IHin as [->|Hin]; [by left|]. right. by apply elem_of_cons; right.
      * right. by apply elem_of_cons; left.
Qed.

(** The largest position of a cache that holds a non-negative one. *)
Lemma seq_pos_max_greatest (c : gset Z) p :
  p ∈ c → 0 ≤ p → (∀ q, q ∈ c → q ≤ p) → KV.seq_pos_max c = p.
Proof.
  intros Hp H0 Hmax. unfold KV.seq_pos_max.
  destruct (foldr_max_bounds (-1) (elements c)) as (_ & Hle & Hin).
  assert (p ≤ foldr Z.max (-1) (elements c)) by (apply Hle; by apply elem_of_elements).
  destruct Hin as [Heq|Hin]; [lia|].
  apply elem_of_elements, Hmax in Hin. lia.
Qed.

Lemma seq_pos_max_range N : 0 < N → KV.seq_pos_max (KV.range N) = N - 1.
Proof.
  intros HN. apply seq_pos_max_greatest; [apply elem_of_range; lia | lia |].
  intros q Hq%elem_of_range. lia.
Qed.

Lemma shifted_range arch N :
  supported arch = true →
  3 + first_image_npos arch ≤ N →
  shifted arch (KV.range N) = KV.range (N - first_image_npos arch).
Proof.
  intros Hsup HN. unfold shifted, remove_end, REMOVE_START, PREFIX_LEN.
  assert (0 < first_image_npos arch) as Hn
    by (destruct (supported_cases arch Hsup) as [[_ ->]|[_ ->]]; lia).
  set (n := first_image_npos arch) in *.
  apply set_eq. intros q.
  rewrite elem_of_seq_add_open, elem_of_range. split.
  - intros (p & [Hp Hout]%elem_of_seq_rm & ->).
    apply elem_of_range in Hp. case_decide; lia.
  - intros Hq. destruct (decide (q < 3)) as [Hlt|Hge].
    + exists q. rewrite elem_of_seq_rm, elem_of_range.
      split; [lia|]. case_decide; lia.
    + exists (q + n). rewrite elem_of_seq_rm, elem_of_range.
      split; [lia|]. case_decide; lia.
Qed.

(** C4. With the cache of sequence 0 modelled as the set of its occupied
    positions: when these are the contiguous range [0, N) and
    3 + first_image_npos <= N, the removal followed by the shift that main
    performs leaves the contiguous range [0, N - first_image_npos), so the
    next available position (seq_pos_max + 1) goes from N down by exactly
    first_image_npos, and that is the value main stores in n_pos (for a
    value a llama_pos can hold). *)
Theorem shift_closes_gap (arch : string) (N : Z) (m : Machine Ω) :
  supported arch = true →
  3 + first_image_npos arch ≤ N →
  kv (lib m) = KV.range N →
  let n := first_image_npos arch in
  let r := cache_shift arch m in
  KV.seq_pos_max (kv (lib m)) + 1 = N
  ∧ kv (lib (final r)) = KV.range (N - n)
  ∧ KV.seq_pos_max (kv (lib (final r))) + 1 = KV.seq_pos_max (kv (lib m)) + 1 - n
  ∧ (in_int32 (N - n) → result r = Ok (N - n)).
Proof.
  intros Hsup HN Hkv n r.
  assert (0 < n) as Hn
    by (subst n; destruct (supported_cases arch Hsup) as [[_ ->]|[_ ->]]; lia).
  subst r. rewrite cache_shift_run. unfold final, result. simpl.
  rewrite Hkv, (shifted_range arch N Hsup HN).
  fold n. rewrite !seq_pos_max_range by lia.
  repeat split; try lia.
  intros Hfit. f_equal. replace (N - n - 1 + 1) with (N - n) by lia.
  by apply wrap32_small.
Qed.

End ShiftCache.

(** ** The prompt and its images *)

Lemma loop_no_image_call e : loop_event e = true → is_image_call e = false.
Proof. by destruct e. Qed.

Lemma loop_no_tokenize e : loop_event e = true → is_tokenize e = false.
Proof. by destruct e. Qed.

Section Prompt.

Context {Ω : Type} (rt : Runtime Ω).

Lemma build_prompt_unsupported arch :
  supported arch = false →
  build_prompt arch = inr ("Unsupported architecture: " +:+ arch).
Proof.
  unfold supported, build_prompt. intros [Hq Hg]%orb_false_iff. by rewrite Hq, Hg.
Qed.

Lemma build_prompt_markers arch prompt :
  build_prompt arch = inl prompt → occurrences media_marker prompt = 2%nat.
Proof.
  unfold build_prompt.
  destruct (String.eqb arch "qwen3vl"); [by intros [= <-]|].
  destruct (String.eqb arch "gemma3"); [by intros [= <-]|done].
Qed.

(** C5. For qwen3vl and for gemma3 build_prompt returns a prompt with
    exactly two media markers, and for every other architecture string it
    throws. A run of main that passes the checks of the argument count, of
    the architecture key and of the architecture, and in which no load of
    the image fails, calls mtmd_tokenize exactly once: the prompt is the
    one build_prompt returns for the model's architecture, and the images
    are exactly the two bitmaps of the two loads the run made before, both
    from the file DICE_IMAGE_PATH. Every other run does not tokenize. *)
Theorem prompt_has_two_images :
  (∃ prompt, build_prompt "qwen3vl" = inl prompt
             ∧ occurrences media_marker prompt = 2%nat)
  ∧ (∃ prompt, build_prompt "gemma3" = inl prompt
               ∧ occurrences media_marker prompt = 2%nat)
  ∧ (∀ arch, arch ≠ "qwen3vl" → arch ≠ "gemma3" →
       build_prompt arch = inr ("Unsupported architecture: " +:+ arch))
  ∧ (∀ argc argv l,
       let tr := trace (run rt argc argv l) in
       (argc = 3 → 0 ≤ key_id rt argv → supported (model_arch rt argv) = true →
        tally is_image_failure tr = O →
        ∃ h1 h2 prompt rc,
          build_prompt (model_arch rt argv) = inl prompt
          ∧ occurrences media_marker prompt = 2%nat
          ∧ List.filter is_image_call tr
            = [EvBitmapInit (DICE_IMAGE_PATH rt) (Some h1);
               EvBitmapInit (DICE_IMAGE_PATH rt) (Some h2);
               EvTokenize prompt [h1; h2] rc])
       ∧ (argc ≠ 3 ∨ key_id rt argv < 0 ∨ supported (model_arch rt argv) = false
          ∨ (0 < tally is_image_failure tr)%nat →
          tally is_tokenize tr = O)).
Proof.
  split; [eexists; split; reflexivity|].
  split; [eexists; split; reflexivity|].
  split.
  { intros arch Hq%String.eqb_neq Hg%String.eqb_neq.
    apply build_prompt_unsupported. unfold supported. by rewrite Hq, Hg. }
  intros argc argv l.
  main_cases rt argc argv l; unfold trace; cbn [fst snd]; cbv zeta.
  - split; [intros; lia | done].
  - split; [intros; lia |]. intros _. by destruct (unwinds_uncaught rt).
  - split; [intros; congruence | done].
  - split; [|intros _; by destruct img1, img2].
    intros _ _ _ Hnone. exfalso. destruct Himg; subst; tally_events; lia.
  - split.
    + intros _ _ _ _. exists h1, h2, prompt, rc.
      split; [done|]. split; [by eapply build_prompt_markers|]. done.
    + intros [?|[?|[?|Hfail]]]; try (lia || congruence).
      exfalso. tally_events. lia.
  - split.
    + intros _ _ _ _. exists h1, h2, prompt, 0.
      split; [done|]. split; [by eapply build_prompt_markers|]. done.
    + intros [?|[?|[?|Hfail]]]; try (lia || congruence).
      exfalso. tally_events. lia.
  - subst t2 pass1 pass2.
    pose proof (pass_body_tally rt is_image_failure n0 5 m0 loop_no_image_failure).
    pose proof (pass_body_tally rt is_image_failure n2 50 m2 loop_no_image_failure).
    split.
    + intros _ _ _ _. exists h1, h2, prompt, 0.
      split; [done|]. split; [by eapply build_prompt_markers|].
      filter_events.
      by rewrite !(pass_body_filter rt is_image_call _ _ _ loop_no_image_call).
    + intros [?|[?|[?|Hfail]]]; try (lia || congruence).
      exfalso. tally_events. lia.
Qed.

End Prompt.

(** ** Resources *)

Lemma loop_no_resource_event e : loop_event e = true → is_resource_event e = false.
Proof. by destruct e. Qed.

Lemma loop_no_acquire r e : loop_event e = true → acquires r e = false.
Proof. by destruct e. Qed.

Lemma held_after_filter held t :
  held_after held t = held_after held (List.filter is_resource_event t).
Proof.
  revert held. induction t as [|e t IH]; intros held; [done|].
  destruct e; simpl; try apply IH.
  destruct (remove_first r held); [apply IH|done].
Qed.

Lemma held_after_acquire held r t :
  held_after held (EvAcquire r :: t) = held_after (r :: held) t.
Proof. done. Qed.

Lemma held_after_release held r t :
  held_after (r :: held) (EvRelease r :: t) = held_after held t.
Proof. simpl. by rewrite decide_True. Qed.

Arguments held_after : simpl never.

Ltac held_steps :=
  repeat (rewrite held_after_acquire || rewrite held_after_release); reflexivity.

Section Resources.

Context {Ω : Type} (rt : Runtime Ω).

(** C8, as the code has it. Every handle is released on every path that
    returns. On every return from main, whatever the exit code, every
    handle acquired during the run (the gguf context, model, context,
    vision-projector context, bitmaps, chunk buffer, sampler and batches)
    has been released exactly once and no scoped wrapper is left alive.
    The sampler is created only on the path that ends in [return 0], and
    is freed there before the scoped wrappers are destroyed. Every call of
    generate_tokens acquires one batch and releases it, on every path
    through the loop, and leaves the scoped wrappers as they were. The one
    path that does not return is the uncaught exception of get_model_arch:
    there the gguf context is the only handle acquired, and it is released
    exactly when the implementation unwinds the stack before it
    terminates; otherwise it is still held when the process ends. *)
Theorem handles_released :
  (∀ argc argv l code,
      result (run rt argc argv l) = Exit code →
      held_after [] (trace (run rt argc argv l)) = Some []
      ∧ scope (final (run rt argc argv l)) = [])
  ∧ (∀ argc argv l,
       (0 < tally (acquires RSampler) (trace (run rt argc argv l)))%nat →
       result (run rt argc argv l) = Exit 0
       ∧ ∃ t h1 h2,
           trace (run rt argc argv l)
           = t ++ EvRelease RSampler :: (EvRelease <$> main_scope h1 h2))
  ∧ (∀ n_pos count phase m held,
       in_int32 count →
       let r := generate_tokens rt n_pos count phase m in
       held_after held (trace r) = Some held
       ∧ List.filter is_resource_event (trace r) = [EvAcquire RBatch; EvRelease RBatch]
       ∧ scope (final r) = scope m)
  ∧ (∀ argc argv l what,
       result (run rt argc argv l) = Throw what →
       List.filter is_resource_event (trace (run rt argc argv l))
       = EvAcquire RGguf :: (if unwinds_uncaught rt then [EvRelease RGguf] else [])
       ∧ held_after [] (trace (run rt argc argv l))
         = Some (if unwinds_uncaught rt then [] else [RGguf])
       ∧ scope (final (run rt argc argv l))
         = (if unwinds_uncaught rt then [] else [RGguf])).
Proof.
  split; [|split; [|split]].
  - intros argc argv l code.
    main_cases rt argc argv l; unfold trace, result, final; simpl;
      intros Hexit; try discriminate Hexit; (split; [|done]).
    + reflexivity.
    + rewrite held_after_filter. simpl. held_steps.
    + rewrite held_after_filter. destruct img1, img2; simpl; held_steps.
    + unfold_events. rewrite held_after_filter. simpl. held_steps.
    + unfold_events. rewrite held_after_filter. simpl. held_steps.
    + rewrite held_after_filter.
      subst t2 pass1 pass2. filter_events.
      rewrite !(pass_body_filter rt is_resource_event _ _ _ loop_no_resource_event).
      simpl. held_steps.
  - intros argc argv l.
    main_cases rt argc argv l; unfold trace, result; cbn [fst snd].
    + simpl. lia.
    + destruct (unwinds_uncaught rt); simpl; lia.
    + simpl. lia.
    + destruct img1, img2; simpl; lia.
    + simpl. lia.
    + simpl. lia.
    + intros _. split; [done|].
      eexists _, h1, h2.
      rewrite !app_assoc. rewrite <- (app_assoc _ [EvRelease RSampler]).
      reflexivity.
  - intros n_pos count phase m held Hcount r. subst r.
    destruct (generate_tokens_pass rt n_pos count phase m Hcount)
      as (n_pos' & m' & -> & Hscope & _).
    unfold trace, final. simpl.
    rewrite held_after_filter. filter_events.
    rewrite !(pass_body_filter rt is_resource_event _ _ _ loop_no_resource_event).
    simpl. split; [held_steps|done].
  - intros argc argv l what.
    main_cases rt argc argv l; unfold trace, result, final; simpl; try done.
    intros _. by destruct (unwinds_uncaught rt).
Qed.

End Resources.

(** ** Failures *)


Section Failures.

Context {Ω : Type} (rt : Runtime Ω).

(** A failed decode is seen only in a run that exits with code 0. *)
Lemma decode_failure_exit_status argc argv l :
  (0 < tally is_decode_failure (trace (run rt argc argv l)))%nat →
  exit_status rt argc argv l = Exited 0.
Proof.
  unfold exit_status.
  main_cases rt argc argv l; unfold trace, result, outcome_of; simpl; try lia; try done.
  - destruct (unwinds_uncaught rt); simpl; lia.
  - destruct img1, img2; simpl; lia.
Qed.

(** C7. A failed llama_decode in generate_tokens ends the loop of that
    call after the marker is printed: the call itself comes back normally
    to main. A run of main whose prompt evaluation succeeded exits with
    code 0 whatever the decodes of the two generation passes return, and a
    run in which a decode failed exits with code 0. *)
Theorem decode_failure_is_not_fatal :
  (∀ fuel count i n_pos batch (m : Machine Ω) tok l1 rc l2,
      i < count →
      common_sampler_sample rt (lib m) = (tok, l1) →
      llama_vocab_is_eog rt tok = false →
      llama_decode rt [entry_of tok n_pos] (common_sampler_accept rt tok l1) = (rc, l2) →
      rc ≠ 0 →
      gen_loop rt (S fuel) count i n_pos batch m
      = (Ok (wrap32 (n_pos + 1)), MkMachine l2 (scope m),
         sampled_events rt tok ++ submit_events tok n_pos rc
           ++ [EvPrint Stdout " [DECODE_FAILED]" []]))
  ∧ (∀ n_pos count phase m,
       in_int32 count →
       ∃ n_pos', result (generate_tokens rt n_pos count phase m) = Ok n_pos')
  ∧ (∀ argc argv l,
       (0 < tally is_eval_success (trace (run rt argc argv l)))%nat →
       exit_status rt argc argv l = Exited 0)
  ∧ (∀ argc argv l,
       (0 < tally is_decode_failure (trace (run rt argc argv l)))%nat →
       exit_status rt argc argv l = Exited 0).
Proof.
  split; [|split; [|split]].
  - intros. by eapply gen_loop_decode_failed.
  - intros n_pos count phase m Hcount.
    destruct (generate_tokens_pass rt n_pos count phase m Hcount)
      as (n_pos' & m' & -> & _). by exists n_pos'.
  - intros argc argv l. unfold exit_status.
    main_cases rt argc argv l; unfold trace, result, outcome_of; simpl; try lia; try done.
    + destruct (unwinds_uncaught rt); simpl; lia.
    + destruct img1, img2; simpl; lia.
    + apply Z.eqb_neq in Hrc. rewrite Hrc. simpl. lia.
  - apply decode_failure_exit_status.
Qed.





End Failures.

(** ** Termination of the generation passes *)

Lemma loop_no_seq_rm e : loop_event e = true → is_seq_rm e = false.
Proof. by destruct e. Qed.

(** A trace is cut in only one way at an event that occurs once in it. *)
Lemma split_at_unique (p : Event → bool) (A B t1 t2 : list Event) (e e' : Event) :
  tally p A = O → tally p B = O → p e' = true →
  t1 ++ e' :: t2 = A ++ e :: B →
  t1 = A ∧ t2 = B.
Proof.
  intros HA HB He'. revert A HA.
  induction t1 as [|x t1 IH]; intros [|a A] HA Heq; simpl in *.
  - by injection Heq as _ ->.
  - injection Heq as -> _. rewrite He' in HA. lia.
  - injection Heq as _ <-. rewrite tally_app in HB. simpl in HB.
    rewrite He' in HB. lia.
  - injection Heq as -> Heq.
    destruct (IH A) as [-> ->]; [|done|done].
    destruct (p a); [lia|done].
Qed.

Section Termination.

Context {Ω : Type} (rt : Runtime Ω).

Lemma pass_body_bounds n_pos count m :
  in_int32 count →
  (tally is_sample (pass_body rt n_pos count m) ≤ Z.to_nat count)%nat
  ∧ (tally is_token_print (pass_body rt n_pos count m) ≤ Z.to_nat count)%nat
  ∧ (tally is_decode (pass_body rt n_pos count m) ≤ Z.to_nat count)%nat.
Proof.
  intros Hcount.
  destruct (gen_loop_bound rt count (S (Z.to_nat count)) 0 n_pos [] m Hcount)
    as (_ & Hs & Hp & Hd); [lia | lia |].
  rewrite Z.sub_0_r in Hs. fold (pass_body rt n_pos count m) in Hs, Hp, Hd. lia.
Qed.

(** C9. generate_tokens terminates for every count an [int] can hold:
    its loop is left through its test or a [break] within [count + 1]
    tests and any further fuel changes nothing; the body runs at most
    [count] times, so at most [count] tokens are printed and at most
    [count] calls of llama_decode are made.  No run of main is cut short,
    and in a run that shifts the cache the pass before the removal samples,
    prints and decodes at most 5 tokens and the pass after it at most 50. *)
Theorem generation_terminates :
  (∀ n_pos count phase m,
      in_int32 count →
      let r := generate_tokens rt n_pos count phase m in
      (∃ n_pos', result r = Ok n_pos')
      ∧ (∀ fuel, (Z.to_nat count < fuel)%nat →
           gen_loop rt fuel count 0 n_pos [] m
           = gen_loop rt (S (Z.to_nat count)) count 0 n_pos [] m)
      ∧ (tally is_sample (trace r) ≤ Z.to_nat count)%nat
      ∧ (tally is_token_print (trace r) ≤ Z.to_nat count)%nat
      ∧ (tally is_decode (trace r) ≤ Z.to_nat count)%nat)
  ∧ (∀ argc argv l,
       let tr := trace (run rt argc argv l) in
       exit_status rt argc argv l ≠ Unfinished
       ∧ (tally is_decode tr ≤ 55)%nat
       ∧ (∀ t1 p0 p1 t2,
            tr = t1 ++ EvSeqRm 0 p0 p1 :: t2 →
            ((tally is_sample t1 ≤ 5)%nat
             ∧ (tally is_token_print t1 ≤ 5)%nat
             ∧ (tally is_decode t1 ≤ 5)%nat)
            ∧ ((tally is_sample t2 ≤ 50)%nat
               ∧ (tally is_token_print t2 ≤ 50)%nat
               ∧ (tally is_decode t2 ≤ 50)%nat))).
Proof.
  split.
  - intros n_pos count phase m Hcount r.
    destruct (generate_tokens_bounded rt n_pos count phase m Hcount)
      as (Hok & _ & Hs & Hp & Hd).
    repeat split; try done.
    intros fuel Hfuel. apply gen_loop_fuel_mono; [lia|].
    destruct (gen_loop_bound rt count (S (Z.to_nat count)) 0 n_pos [] m Hcount)
      as ([n' Hn'] & _); [lia | lia |].
    by rewrite Hn'.
  - intros argc argv l tr. subst tr. unfold exit_status.
    main_cases rt argc argv l; unfold trace, result, outcome_of; cbn [fst snd];
      (split; [done|]).
    1-6: split;
      [ try destruct (unwinds_uncaught rt); try destruct img1; try destruct img2;
        unfold_events; simpl; lia
      | intros t1 p0 p1 t2' Heq; exfalso;
        apply (f_equal (tally is_seq_rm)) in Heq;
        rewrite (tally_app _ t1) in Heq;
        try destruct (unwinds_uncaught rt); try destruct img1; try destruct img2;
        unfold_events; simpl in Heq; lia ].
    subst t2 pass1 pass2.
    destruct (pass_body_bounds n0 5 m0) as (Hs5 & Hp5 & Hd5); [unfold in_int32; lia|].
    destruct (pass_body_bounds n2 50 m2) as (Hs50 & Hp50 & Hd50); [unfold in_int32; lia|].
    set (pass1 := pass_body rt n0 5 m0) in *.
    set (pass2 := pass_body rt n2 50 m2) in *.
    set (shift := shift_events (model_arch rt argv) (kv (lib m1))).
    set (A := arch_events rt argv ++ load_events argv
                ++ bitmap_events rt (Some h1) ++ bitmap_events rt (Some h2)
                ++ tokenize_events rt argv prompt h1 h2 0 ++ eval_events 0 n0
                ++ [EvPrint Stdout ("Position after mtmd evaluation: %d" +:+ LF) [AInt n0];
                    EvAcquire RSampler]
                ++ (gen_banner "Before cache shift" :: EvAcquire RBatch :: pass1
                      ++ [EvRelease RBatch; EvPrint Stdout LF []])
                ++ take 4 shift).
    set (B := drop 5 shift
                ++ (gen_banner "After cache shift" :: EvAcquire RBatch :: pass2
                      ++ [EvRelease RBatch; EvPrint Stdout LF []])
                ++ [EvRelease RSampler] ++ (EvRelease <$> main_scope h1 h2)).
    assert (tally is_seq_rm pass1 = O) as Hrm1
      by apply (pass_body_tally rt is_seq_rm _ _ _ loop_no_seq_rm).
    assert (tally is_seq_rm pass2 = O) as Hrm2
      by apply (pass_body_tally rt is_seq_rm _ _ _ loop_no_seq_rm).
    match goal with
    | |- (tally is_decode ?t ≤ 55)%nat ∧ _ =>
        assert (t = A ++ EvSeqRm 0 REMOVE_START (remove_end (model_arch rt argv)) :: B)
          as Hcut
    end.
    { subst A B shift. unfold_events. simpl.
      rewrite <- ?app_assoc. simpl. reflexivity. }
    rewrite Hcut.
    assert (tally is_seq_rm A = O ∧ tally is_seq_rm B = O
            ∧ tally is_sample A = tally is_sample pass1
            ∧ tally is_token_print A = tally is_token_print pass1
            ∧ tally is_decode A = tally is_decode pass1
            ∧ tally is_sample B = tally is_sample pass2
            ∧ tally is_token_print B = tally is_token_print pass2
            ∧ tally is_decode B = tally is_decode pass2)
      as (HA & HB & HsA & HpA & HdA & HsB & HpB & HdB).
    { subst A B shift. unfold_events. simpl.
      repeat progress (rewrite ?tally_app; simpl).
      rewrite Hrm1, Hrm2, !Nat.add_0_r. done. }
    clearbody A B pass1 pass2.
    split.
    + rewrite tally_app. simpl. lia.
    + intros t1 p0 p1 t2' Heq.
      destruct (split_at_unique is_seq_rm A B t1 t2'
                  (EvSeqRm 0 REMOVE_START (remove_end (model_arch rt argv)))
                  (EvSeqRm 0 p0 p1) HA HB eq_refl (eq_sym Heq)) as [-> ->].
      lia.
Qed.

End Termination.

(** ** The architecture test and build_prompt *)

Section Helpers.

Context {Ω : Type} (rt : Runtime Ω).


End Helpers.

(** ** More about generate_tokens *)

Lemma tally_release p rs :
  (∀ r, p (EvRelease r) = false) → tally p (EvRelease <$> rs) = O.
Proof.
  intros Hp. induction rs as [|r rs IH]; [done|].
  rewrite fmap_cons. cbn [tally]. by rewrite Hp, IH.
Qed.

Lemma added_entries_app t1 t2 :
  added_entries (t1 ++ t2) = added_entries t1 ++ added_entries t2.
Proof.
  induction t1 as [|e t1 IH]; simpl; [done|]. destruct e; simpl; by rewrite ?IH.
Qed.

Lemma decode_batches_app t1 t2 :
  decode_batches (t1 ++ t2) = decode_batches t1 ++ decode_batches t2.
Proof.
  induction t1 as [|e t1 IH]; simpl; [done|]. destruct e; simpl; by rewrite ?IH.
Qed.

Lemma added_entries_none t : tally is_batch_add t = O → added_entries t = [].
Proof.
  induction t as [|e t IH]; simpl; [done|]. destruct e; simpl; try apply IH. lia.
Qed.

Lemma positions_app n_pos a b :
  positions n_pos (a + b) = positions n_pos a ++ positions (Nat.iter a next_pos n_pos) b.
Proof.
  revert n_pos. induction a as [|a IH]; intros n_pos; simpl; [done|].
  rewrite IH. do 2 f_equal. by rewrite <- Nat.iter_succ_r.
Qed.

Lemma next_pos_iter n_pos k :
  in_int32 n_pos → in_int32 (n_pos + Z.of_nat k) →
  Nat.iter k next_pos n_pos = n_pos + Z.of_nat k.
Proof.
  unfold in_int32. intros Hn Hk. induction k as [|k IH]; simpl; [lia|].
  rewrite IH by lia. unfold next_pos. rewrite wrap32_small; unfold in_int32; lia.
Qed.

Section Passes.

Context {Ω : Type} (rt : Runtime Ω).

(** X3. A call of generate_tokens with a count of zero or less runs no
    round of the loop: it prints the banner, creates and frees the batch,
    prints the line feed, and leaves the position counter and the runtime
    as they were; the sampler is not called. *)
Theorem generate_tokens_no_rounds n_pos count phase (m : Machine Ω) :
  count ≤ 0 →
  generate_tokens rt n_pos count phase m
  = (Ok n_pos, m,
     [gen_banner phase; EvAcquire RBatch; EvRelease RBatch; EvPrint Stdout LF []]).
Proof.
  intros Hcount. unfold generate_tokens, bind, printf, emit, pure. simpl.
  assert ((0 <? count) = false) as -> by (apply Z.ltb_ge; lia).
  reflexivity.
Qed.

(** What one round of the loop adds to the accounts of a pass. *)
Lemma BodyStep_accounts n_pos batch (m : Machine Ω) flow n_pos' batch' m' t :
  BodyStep rt n_pos batch m flow n_pos' batch' m' t →
  tally is_sample t = 1%nat ∧ tally is_accept t = 1%nat ∧ tally is_flush t = 1%nat
  ∧ tally is_decode_failure t = tally (prints failed_marker) t
  ∧ (1 = tally is_decode t + tally (prints eos_marker) t)%nat
  ∧ (flow = Next →
       tally (prints eos_marker) t = O ∧ tally (prints failed_marker) t = O)
  ∧ (flow = Break →
       (tally (prints eos_marker) t + tally (prints failed_marker) t = 1)%nat).
Proof.
  destruct 1 as [tok l1 Hs Heog | tok l1 rc l2 Hs Heog Hd Hrc | tok l1 l2 Hs Heog Hd];
    simpl; try (apply Z.eqb_neq in Hrc; rewrite Hrc); simpl;
    repeat split; (done || lia).
Qed.

Lemma gen_loop_accounts count fuel i n_pos batch (m : Machine Ω) :
  in_int32 count → -2147483648 ≤ i →
  (Z.to_nat (count - i) < fuel)%nat →
  let t := trace (gen_loop rt fuel count i n_pos batch m) in
  tally is_accept t = tally is_sample t
  ∧ tally is_flush t = tally is_sample t
  ∧ tally is_decode_failure t = tally (prints failed_marker) t
  ∧ (tally is_sample t = tally is_decode t + tally (prints eos_marker) t)%nat
  ∧ (tally (prints eos_marker) t + tally (prints failed_marker) t ≤ 1)%nat
  ∧ ((tally (prints eos_marker) t + tally (prints failed_marker) t = 0)%nat →
       tally is_sample t = Z.to_nat (count - i)).
Proof.
  intros Hcount Hi Hfuel. cbv zeta. revert Hi Hfuel. revert fuel i n_pos batch m.
  apply (gen_loop_cases rt count
           (λ fuel i _ _ r, -2147483648 ≤ i → (Z.to_nat (count - i) < fuel)%nat →
              let t := trace r in
              tally is_accept t = tally is_sample t
              ∧ tally is_flush t = tally is_sample t
              ∧ tally is_decode_failure t = tally (prints failed_marker) t
              ∧ (tally is_sample t = tally is_decode t + tally (prints eos_marker) t)%nat
              ∧ (tally (prints eos_marker) t + tally (prints failed_marker) t ≤ 1)%nat
              ∧ ((tally (prints eos_marker) t + tally (prints failed_marker) t = 0)%nat →
                   tally is_sample t = Z.to_nat (count - i))));
    unfold trace; simpl.
  - intros; lia.
  - intros. repeat split; lia.
  - intros ????????? Hlt Hstep Hi Hfuel. rewrite app_nil_r.
    apply BodyStep_accounts in Hstep as (-> & -> & -> & -> & ? & _ & Hbreak).
    specialize (Hbreak eq_refl). repeat split; lia.
  - intros ???????????? Hlt Hstep _ IH Hi Hfuel.
    apply BodyStep_accounts in Hstep as (Hs & Ha & Hf & Hd & Hone & Hnext & _).
    destruct (Hnext eq_refl) as [Heos Hfailed].
    assert (wrap32 (i + 1) = i + 1) as Hw
      by (apply wrap32_small; unfold in_int32 in *; lia).
    rewrite Hw in IH.
    destruct IH as (? & ? & ? & ? & ? & Hfull); [lia | lia |].
    rewrite !tally_app, Hs, Ha, Hf, Heos, Hfailed.
    repeat split; lia.
Qed.


(** The entries and batches of one round of the loop. *)
Lemma BodyStep_batches n_pos batch (m : Machine Ω) flow n_pos' batch' m' t :
  BodyStep rt n_pos batch m flow n_pos' batch' m' t →
  decode_batches t = (λ en, [en]) <$> added_entries t
  ∧ be_pos <$> added_entries t = positions n_pos (tally is_decode t)
  ∧ Forall (λ en, be_seq en = [0] ∧ be_logits en = true) (added_entries t)
  ∧ n_pos' = Nat.iter (tally is_decode t) next_pos n_pos.
Proof. destruct 1; simpl; repeat split; repeat constructor. Qed.

(** The entries of a pass and the batches it decodes. *)
Lemma gen_loop_batches fuel count i n_pos batch (m : Machine Ω) :
  let t := trace (gen_loop rt fuel count i n_pos batch m) in
  decode_batches t = (λ en, [en]) <$> added_entries t
  ∧ be_pos <$> added_entries t = positions n_pos (tally is_decode t)
  ∧ Forall (λ en, be_seq en = [0] ∧ be_logits en = true) (added_entries t).
Proof.
  cbv zeta.
  apply (gen_loop_cases rt count
           (λ _ _ n_pos _ r,
              decode_batches (trace r) = (λ en, [en]) <$> added_entries (trace r)
              ∧ be_pos <$> added_entries (trace r)
                = positions n_pos (tally is_decode (trace r))
              ∧ Forall (λ en, be_seq en = [0] ∧ be_logits en = true)
                  (added_entries (trace r))));
    unfold trace; cbn [fst snd].
  - done.
  - done.
  - intros ????????? _ Hstep. rewrite app_nil_r.
    by apply BodyStep_batches in Hstep as (? & ? & ? & _).
  - intros ???????????? _ Hstep _ (IHd & IHp & IHf).
    apply BodyStep_batches in Hstep as (Hd & Hp & Hf & ->).
    rewrite decode_batches_app, added_entries_app, tally_app, !fmap_app, positions_app.
    rewrite Hd, Hp, IHd, IHp. split; [done|]. split; [done|].
    apply Forall_app. by split.
Qed.

(** X6. Every batch generate_tokens gives to llama_decode holds exactly one
    token, the one it just added, for sequence 0 and with logits requested;
    and the positions of the decoded tokens are consecutive values of the
    position counter, from the value the caller passed. *)
Theorem generate_tokens_batches n_pos count phase (m : Machine Ω) :
  in_int32 count →
  let t := trace (generate_tokens rt n_pos count phase m) in
  decode_batches t = (λ en, [en]) <$> added_entries t
  ∧ be_pos <$> added_entries t = positions n_pos (tally is_decode t)
  ∧ Forall (λ en, be_seq en = [0] ∧ be_logits en = true) (added_entries t).
Proof.
  intros Hcount t. subst t.
  destruct (generate_tokens_pass rt n_pos count phase m Hcount) as (n' & m' & -> & _ & _).
  destruct (gen_loop_batches (S (Z.to_nat count)) count 0 n_pos [] m) as (Hd & Hp & Hf).
  fold (pass_body rt n_pos count m) in Hd, Hp, Hf.
  unfold trace. simpl.
  rewrite decode_batches_app, added_entries_app, tally_app. simpl.
  by rewrite !app_nil_r, Nat.add_0_r.
Qed.

(** When no token ends the generation and no decode fails, no round of the
    loop is left by [break]. *)
Lemma gen_loop_no_marker fuel count i n_pos batch (m : Machine Ω) :
  (∀ tok, llama_vocab_is_eog rt tok = false) →
  (∀ b l, (llama_decode rt b l).1 = 0) →
  let t := trace (gen_loop rt fuel count i n_pos batch m) in
  tally (prints eos_marker) t = O ∧ tally (prints failed_marker) t = O.
Proof.
  intros Heog Hdec. cbv zeta.
  apply (gen_loop_cases rt count
           (λ _ _ _ _ r, tally (prints eos_marker) (trace r) = O
                         ∧ tally (prints failed_marker) (trace r) = O));
    unfold trace; simpl; try done.
  - intros ????????? _ Hstep. exfalso.
    inversion Hstep as [tok l1 Hs He | tok l1 rc l2 Hs He Hd Hrc | ]; subst.
    + by rewrite Heog in He.
    + apply (f_equal fst) in Hd. rewrite Hdec in Hd. simpl in Hd. congruence.
  - intros ???????????? _ Hstep _ [IHe IHf].
    apply BodyStep_accounts in Hstep as (_ & _ & _ & _ & _ & Hnext & _).
    destruct (Hnext eq_refl) as [He Hf].
    rewrite !tally_app. lia.
Qed.

(** X4. On a runtime whose vocabulary never ends the generation and whose
    decodes all succeed, generate_tokens runs the full pass: it samples and
    decodes exactly [count] tokens (none for a count of zero or less) and
    hands back the position counter advanced [count] times, which is
    [n_pos + count] when that fits a llama_pos. *)
Theorem generate_tokens_full_pass n_pos count phase (m : Machine Ω) :
  in_int32 count →
  (∀ tok, llama_vocab_is_eog rt tok = false) →
  (∀ b l, (llama_decode rt b l).1 = 0) →
  let r := generate_tokens rt n_pos count phase m in
  tally is_sample (trace r) = Z.to_nat count
  ∧ tally is_decode (trace r) = Z.to_nat count
  ∧ result r = Ok (Nat.iter (Z.to_nat count) next_pos n_pos)
  ∧ (0 ≤ count → in_int32 n_pos → in_int32 (n_pos + count) →
       result r = Ok (n_pos + count)).
Proof.
  intros Hcount Heog Hdec r. subst r.
  destruct (generate_tokens_pass rt n_pos count phase m Hcount)
    as (n' & m' & Hrun & _ & Hpos).
  destruct (gen_loop_accounts count (S (Z.to_nat count)) 0 n_pos [] m Hcount)
    as (_ & _ & _ & Hs & _ & Hfull); [lia | lia |].
  destruct (gen_loop_no_marker (S (Z.to_nat count)) count 0 n_pos [] m Heog Hdec)
    as [He Hf].
  rewrite Z.sub_0_r in Hfull.
  fold (pass_body rt n_pos count m) in Hs, Hfull, He, Hf.
  assert (tally is_decode (pass_body rt n_pos count m) = Z.to_nat count) as Hd by lia.
  rewrite Hrun. unfold trace, result. simpl. rewrite !tally_app. simpl.
  rewrite Hpos, Hd.
  repeat split; try lia.
  intros H0 Hn Hend. f_equal.
  rewrite next_pos_iter; [lia | done | by rewrite Z2Nat.id].
Qed.

End Passes.

(** ** More about main *)

Lemma loop_no_bitmap_init e : loop_event e = true → is_bitmap_init e = false.
Proof. by destruct e. Qed.

Lemma loop_no_eval e : loop_event e = true → is_eval e = false.
Proof. by destruct e. Qed.

Lemma loop_no_report e : loop_event e = true → is_report e = false.
Proof. by destruct e. Qed.

Section Stages.

Context {Ω : Type} (rt : Runtime Ω).

(** X7. What a rejected run has called. With an argument count other than
    3 main calls nothing: its trace is the usage line alone. With a model
    file that lacks the architecture key, or with an architecture other
    than qwen3vl and gemma3, main has called common_init and has read the
    metadata of the model file in get_model_arch (the gguf context is
    created, queried and freed, unless the exception leaves it alive), and
    that is all: no model, projector or image is loaded, and nothing is
    tokenized, evaluated, sampled or decoded. A run
    that passes the three checks goes on to load the model from argv[1]
    with a context of 1024 and the projector from argv[2] with 6
    threads. *)
Theorem rejected_runs_load_nothing argc argv (l : LibState Ω) :
  let tr := trace (run rt argc argv l) in
  (argc ≠ 3 → tr = usage_events argv)
  ∧ (argc = 3 → key_id rt argv < 0 →
       List.filter is_call tr
       = EvCommonInit :: EvAcquire RGguf
           :: (if unwinds_uncaught rt then [EvRelease RGguf] else []))
  ∧ (argc = 3 → 0 ≤ key_id rt argv → supported (model_arch rt argv) = false →
       List.filter is_call tr = [EvCommonInit; EvAcquire RGguf; EvRelease RGguf])
  ∧ (argc = 3 → 0 ≤ key_id rt argv → supported (model_arch rt argv) = true →
       ∃ t, List.filter is_call tr
            = [EvCommonInit; EvAcquire RGguf; EvRelease RGguf] ++ load_events argv ++ t).
Proof.
  cbv zeta.
  main_cases rt argc argv l; unfold trace; cbn [fst snd];
    (split; [|split; [|split]]); intros; try (done || lia || congruence).
  - by destruct (unwinds_uncaught rt).
  - rewrite (List.filter_app _ (arch_events rt argv)), (List.filter_app _ (load_events argv)).
    eexists. reflexivity.
  - rewrite (List.filter_app _ (arch_events rt argv)), (List.filter_app _ (load_events argv)).
    eexists. reflexivity.
  - rewrite (List.filter_app _ (arch_events rt argv)), (List.filter_app _ (load_events argv)).
    eexists. reflexivity.
  - rewrite (List.filter_app _ (arch_events rt argv)), (List.filter_app _ (load_events argv)).
    eexists. reflexivity.
Qed.

(** X8. Once the architecture is accepted, main loads the image exactly
    twice, both times from DICE_IMAGE_PATH, and the second load is made even
    when the first has failed; the run ends with "Failed to load image"
    exactly when one of the two loads returned no bitmap. In a run that is
    rejected earlier the image is not loaded at all. *)
Theorem image_loaded_twice_or_never argc argv (l : LibState Ω) :
  let tr := trace (run rt argc argv l) in
  (argc = 3 → 0 ≤ key_id rt argv → supported (model_arch rt argv) = true →
     ∃ img1 img2,
       List.filter is_bitmap_init tr
       = [EvBitmapInit (DICE_IMAGE_PATH rt) img1; EvBitmapInit (DICE_IMAGE_PATH rt) img2]
       ∧ ((img1 = None ∨ img2 = None)
            ↔ (0 < tally (prints ("Failed to load image" +:+ LF)) tr)%nat))
  ∧ (argc ≠ 3 ∨ key_id rt argv < 0 ∨ supported (model_arch rt argv) = false →
       List.filter is_bitmap_init tr = []).
Proof.
  cbv zeta.
  main_cases rt argc argv l; unfold trace; cbn [fst snd].
  - split; [intros; lia | done].
  - split; [intros; lia |]. intros _. by destruct (unwinds_uncaught rt).
  - split; [intros; congruence | done].
  - split; [|intros [?|[?|?]]; (lia || congruence)].
    intros _ _ _. exists img1, img2. split.
    + by destruct img1, img2.
    + split; [|done]. intros _. destruct img1, img2; simpl; lia.
  - split; [|intros [?|[?|?]]; (lia || congruence)].
    intros _ _ _. exists (Some h1), (Some h2). split; [done|].
    split; [by intros [?|?] | simpl; lia].
  - split; [|intros [?|[?|?]]; (lia || congruence)].
    intros _ _ _. exists (Some h1), (Some h2). split; [done|].
    split; [by intros [?|?] | simpl; lia].
  - split; [|intros [?|[?|?]]; (lia || congruence)].
    intros _ _ _. exists (Some h1), (Some h2).
    subst t2 pass1 pass2. split.
    + filter_events.
      by rewrite !(pass_body_filter rt is_bitmap_init _ _ _ loop_no_bitmap_init).
    + split; [by intros [?|?]|].
      tally_events.
      assert (∀ e, loop_event e = true → prints ("Failed to load image" +:+ LF) e = false)
        as Hloop.
      { intros [] He; try done. simpl in *. destruct out; [|done].
        repeat (apply orb_true_iff in He as [He|He]);
          apply String.eqb_eq in He; subst fmt; reflexivity. }
      rewrite !(pass_body_tally rt _ _ _ _ Hloop). simpl. lia.
Qed.

(** X9. The stages of main run in order and each at most once, and a
    stage runs only when the one before it succeeded: the prompt is
    tokenized exactly when both bitmaps loaded, it is evaluated exactly when
    the tokenization returned 0, the sampler is created exactly when the
    evaluation returned 0, and without a sampler nothing is sampled, decoded
    or edited in the cache. *)
Theorem stages_in_order argc argv (l : LibState Ω) :
  let tr := trace (run rt argc argv l) in
  (tally is_tokenize tr ≤ 1)%nat
  ∧ (tally is_eval tr ≤ 1)%nat
  ∧ (tally (acquires RSampler) tr ≤ 1)%nat
  ∧ ((0 < tally is_tokenize tr)%nat
       ↔ tally is_bitmap_init tr = 2%nat ∧ tally is_image_failure tr = O)
  ∧ ((0 < tally is_eval tr)%nat
       ↔ (0 < tally is_tokenize tr)%nat ∧ tally is_tokenize_failure tr = O)
  ∧ ((0 < tally (acquires RSampler) tr)%nat
       ↔ (0 < tally is_eval tr)%nat ∧ tally is_eval_failure tr = O)
  ∧ (tally (acquires RSampler) tr = O →
       tally is_sample tr = O ∧ tally is_decode tr = O ∧ tally is_cache_edit tr = O).
Proof.
  cbv zeta.
  main_cases rt argc argv l; unfold trace; cbn [fst snd].
  - simpl. repeat split; lia.
  - destruct (unwinds_uncaught rt); simpl; repeat split; lia.
  - simpl. repeat split; lia.
  - destruct img1 as [?|], img2 as [?|]; (destruct Himg as [?|?]; try discriminate);
      simpl; repeat split; lia.
  - apply Z.eqb_neq in Hrc. unfold_events. simpl. rewrite Hrc. simpl.
    repeat split; lia.
  - apply Z.eqb_neq in Hrc. unfold_events. simpl. rewrite Hrc. simpl.
    repeat split; lia.
  - subst t2 pass1 pass2. tally_events.
    rewrite !(pass_body_tally rt is_tokenize _ _ _ loop_no_tokenize),
      !(pass_body_tally rt is_eval _ _ _ loop_no_eval),
      !(pass_body_tally rt (acquires RSampler) _ _ _ (loop_no_acquire RSampler)),
      !(pass_body_tally rt is_bitmap_init _ _ _ loop_no_bitmap_init),
      !(pass_body_tally rt is_image_failure _ _ _ loop_no_image_failure),
      !(pass_body_tally rt is_tokenize_failure _ _ _ loop_no_tokenize_failure),
      !(pass_body_tally rt is_eval_failure _ _ _ loop_no_eval_failure).
    simpl. repeat split; lia.
Qed.

End Stages.

Section Resumption.

Context {Ω : Type} (rt : Runtime Ω).

Lemma pass_body_positions n_pos count (m : Machine Ω) :
  be_pos <$> added_entries (pass_body rt n_pos count m)
  = positions n_pos (tally is_decode (pass_body rt n_pos count m)).
Proof.
  unfold pass_body.
  by destruct (gen_loop_batches rt (S (Z.to_nat count)) count 0 n_pos [] m) as (_ & ? & _).
Qed.

(** X10. Where the two passes of main decode. In a run that exits with
    code 0 the runtime reports three positions to main: the end of the
    prompt (by mtmd_helper_eval_chunks) and the largest cached position
    before and after the shift. The tokens of the pass before the removal
    are decoded at consecutive positions from the reported end of the
    prompt; the tokens of the pass after it at consecutive positions from
    one past the largest position reported after the shift, whatever the
    counter of the first pass had reached. *)
Theorem passes_start_where_reported argc argv (l : LibState Ω) :
  let tr := trace (run rt argc argv l) in
  exit_status rt argc argv l = Exited 0 →
  ∃ n0 r0 r1,
    List.filter is_report tr = [EvEvalChunks 0 0 n0; EvSeqPosMax 0 r0; EvSeqPosMax 0 r1]
    ∧ ∀ t1 p0 p1 t2,
        tr = t1 ++ EvSeqRm 0 p0 p1 :: t2 →
        be_pos <$> added_entries t1 = positions n0 (tally is_decode t1)
        ∧ be_pos <$> added_entries t2 = positions (wrap32 (r1 + 1)) (tally is_decode t2).
Proof.
  cbv zeta. unfold exit_status.
  main_cases rt argc argv l; unfold trace, result, outcome_of; cbn [fst snd];
    intros Hexit; try discriminate Hexit.
  subst t2 pass1 pass2.
  exists n0, (KV.seq_pos_max (kv (lib m1))),
         (KV.seq_pos_max (shifted (model_arch rt argv) (kv (lib m1)))).
  split.
  { filter_events. by rewrite !(pass_body_filter rt is_report _ _ _ loop_no_report). }
  pose proof (pass_body_positions n0 5 m0) as Hp1.
  pose proof (pass_body_positions n2 50 m2) as Hp2.
  set (pass1 := pass_body rt n0 5 m0) in *.
  set (pass2 := pass_body rt n2 50 m2) in *.
  set (shift := shift_events (model_arch rt argv) (kv (lib m1))).
  set (A := arch_events rt argv ++ load_events argv
              ++ bitmap_events rt (Some h1) ++ bitmap_events rt (Some h2)
              ++ tokenize_events rt argv prompt h1 h2 0 ++ eval_events 0 n0
              ++ [EvPrint Stdout ("Position after mtmd evaluation: %d" +:+ LF) [AInt n0];
                  EvAcquire RSampler]
              ++ (gen_banner "Before cache shift" :: EvAcquire RBatch :: pass1
                    ++ [EvRelease RBatch; EvPrint Stdout LF []])
              ++ take 4 shift).
  set (B := drop 5 shift
              ++ (gen_banner "After cache shift" :: EvAcquire RBatch :: pass2
                    ++ [EvRelease RBatch; EvPrint Stdout LF []])
              ++ [EvRelease RSampler] ++ (EvRelease <$> main_scope h1 h2)).
  assert (tally is_seq_rm pass1 = O) as Hrm1
    by apply (pass_body_tally rt is_seq_rm _ _ _ loop_no_seq_rm).
  assert (tally is_seq_rm pass2 = O) as Hrm2
    by apply (pass_body_tally rt is_seq_rm _ _ _ loop_no_seq_rm).
  match goal with
  | |- ∀ t1 p0 p1 t2, ?t = _ → _ =>
      assert (t = A ++ EvSeqRm 0 REMOVE_START (remove_end (model_arch rt argv)) :: B)
        as Hcut
  end.
  { subst A B shift. unfold_events. simpl.
    rewrite <- ?app_assoc. simpl. reflexivity. }
  rewrite Hcut.
  assert (tally is_seq_rm A = O ∧ tally is_seq_rm B = O
          ∧ tally is_decode A = tally is_decode pass1
          ∧ tally is_decode B = tally is_decode pass2
          ∧ added_entries A = added_entries pass1
          ∧ added_entries B = added_entries pass2)
    as (HA & HB & HdA & HdB & HeA & HeB).
  { subst A B shift. unfold_events. simpl.
    repeat progress (rewrite ?tally_app, ?added_entries_app; simpl).
    rewrite Hrm1, Hrm2, !Nat.add_0_r, !app_nil_r. done. }
  intros t1 p0 p1 t2' Heq.
  destruct (split_at_unique is_seq_rm A B t1 t2'
              (EvSeqRm 0 REMOVE_START (remove_end (model_arch rt argv)))
              (EvSeqRm 0 p0 p1) HA HB eq_refl (eq_sym Heq)) as [-> ->].
  rewrite HdA, HdB, HeA, HeB, Hp1, Hp2. split; [done|].
  by rewrite <- Hn2'.
Qed.

End Resumption.

(** ** More about the shift *)

Section ShiftAnyCache.

Context {Ω : Type}.

(** X11. The shift on any cache, contiguous or not: after the two edits of
    main a position below 3 is cached exactly when it was cached before, and
    a position q >= 3 is cached exactly when q + first_image_npos was; so
    the positions of the first image are gone, every later position has
    moved back by first_image_npos, and no two cached positions have been
    merged. *)
Theorem shift_moves_the_tail (arch : string) (m : Machine Ω) (q : Z) :
  supported arch = true →
  q ∈ kv (lib (final (cache_shift arch m)))
  ↔ (q < 3 ∧ q ∈ kv (lib m)) ∨ (3 ≤ q ∧ q + first_image_npos arch ∈ kv (lib m)).
Proof.
  intros Hsup. rewrite cache_shift_run. unfold final. simpl.
  unfold shifted, remove_end, REMOVE_START, PREFIX_LEN.
  assert (0 < first_image_npos arch) as Hn
    by (destruct (supported_cases arch Hsup) as [[_ ->]|[_ ->]]; lia).
  set (n := first_image_npos arch) in *.
  rewrite elem_of_seq_add_open. split.
  - intros (p & [Hp Hout]%elem_of_seq_rm & ->).
    case_decide.
    + right. split; [lia|]. by replace (p + - n + n) with p by lia.
    + left. split; [lia|done].
  - intros [[Hq Hc]|[Hq Hc]].
    + exists q. rewrite elem_of_seq_rm. split; [split; [done|lia]|].
      case_decide; [lia|done].
    + exists (q + n). rewrite elem_of_seq_rm. split; [split; [done|lia]|].
      case_decide; lia.
Qed.

End ShiftAnyCache.

(** ** The script on the scripted runtime *)

Module Runs.

Import Scripted.

(** The run on a model file without the architecture key. *)
Example no_key_trace :
  run (runtime no_key) 3 argv fresh
  = (Throw "Architecture key not found",
     MkMachine fresh [RGguf],
     [EvCommonInit; EvAcquire RGguf; EvThrow "Architecture key not found"]).
Proof. reflexivity. Qed.

(** The run on a model of another architecture. *)
Example llama_trace :
  trace (run (runtime llama) 3 argv fresh)
  = [EvCommonInit; EvAcquire RGguf; EvRelease RGguf;
     EvPrint Stdout ("Model architecture: %s" +:+ LF) [AStr "llama"];
     EvPrint Stderr ("Only qwen3vl and gemma3 are supported" +:+ LF) []].
Proof. reflexivity. Qed.

(** A qwen3vl prompt of 20 positions, five generated tokens, the shift by
    three, fifty more tokens: 20 + 5 - 3 + 50 positions are cached. *)
Example qwen_cache :
  kv (lib (final (run (runtime qwen) 3 argv fresh))) = KV.range 72.
Proof. vm_compute. reflexivity. Qed.

(** On gemma3 the fourth sampled token ends the generation: three tokens
    are decoded in the first pass, none in the second. *)
Example gemma_decodes :
  tally is_decode (trace (run (runtime gemma) 3 argv fresh)) = 3%nat
  ∧ kv (lib (final (run (runtime gemma) 3 argv fresh))) = KV.range (530 + 3 - 258).
Proof. vm_compute. split; reflexivity. Qed.

(** C2, as stated, fails: with three arguments and a model file that
    lacks the architecture key the process neither exits with code 1 nor
    with code 0; it ends in the uncaught exception. *)
Lemma exit_code_missing_key :
  exit_status (runtime no_key) 3 argv fresh = Aborted "Architecture key not found"
  ∧ exit_status (runtime no_key) 3 argv fresh ≠ Exited 1
  ∧ exit_status (runtime no_key) 3 argv fresh ≠ Exited 0.
Proof. repeat split; vm_compute; congruence. Qed.

Lemma exit_codes_witness :
  ((2 ≠ 3) ∧ exit_status (runtime qwen) 2 argv fresh = Exited 1)
  ∧ ((3 = 3 ∧ key_id (runtime no_key) argv < 0)
     ∧ exit_status (runtime no_key) 3 argv fresh = Aborted "Architecture key not found")
  ∧ ((3 = 3 ∧ 0 ≤ key_id (runtime llama) argv
      ∧ supported (model_arch (runtime llama) argv) = false)
     ∧ exit_status (runtime llama) 3 argv fresh = Exited 1)
  ∧ ((3 = 3 ∧ 0 ≤ key_id (runtime qwen) argv
      ∧ supported (model_arch (runtime qwen) argv) = true
      ∧ tally is_image_failure (trace (run (runtime qwen) 3 argv fresh)) = O
      ∧ tally is_tokenize_failure (trace (run (runtime qwen) 3 argv fresh)) = O
      ∧ tally is_eval_failure (trace (run (runtime qwen) 3 argv fresh)) = O)
     ∧ exit_status (runtime qwen) 3 argv fresh = Exited 0).
Proof.
  split; [|split; [|split]].
  - split; [lia|].
    apply (proj1 (exit_codes (runtime qwen) 2 argv fresh)). lia.
  - split; [split; [reflexivity | vm_compute; reflexivity]|].
    apply (proj1 (proj2 (exit_codes (runtime no_key) 3 argv fresh)));
      [reflexivity | vm_compute; reflexivity].
  - split; [split; [reflexivity | split; [by vm_compute | reflexivity]]|].
    apply (proj1 (proj2 (proj2 (exit_codes (runtime llama) 3 argv fresh))));
      [reflexivity | by vm_compute | left; reflexivity].
  - split.
    { split; [reflexivity|]. split; [by vm_compute|].
      split; [reflexivity|]. repeat split; vm_compute; reflexivity. }
    apply (proj2 (proj2 (proj2 (exit_codes (runtime qwen) 3 argv fresh))));
      [reflexivity | by vm_compute | reflexivity | | | ];
      vm_compute; reflexivity.
Defined.



Lemma shift_removes_first_image_witness :
  exit_status (runtime gemma) 3 argv fresh = Exited 0
  ∧ List.filter is_milestone (trace (run (runtime gemma) 3 argv fresh))
    = [gen_banner "Before cache shift"; EvSeqRm 0 3 261; EvSeqAdd 0 261 (-1) (-258);
       gen_banner "After cache shift"].
Proof.
  assert (exit_status (runtime gemma) 3 argv fresh = Exited 0) as H
    by (vm_compute; reflexivity).
  split; [exact H|].
  exact (proj2 (proj1 (shift_removes_first_image (runtime gemma) 3 argv fresh) H)).
Defined.

Lemma shift_closes_gap_witness :
  (supported "qwen3vl" = true ∧ 3 + first_image_npos "qwen3vl" ≤ 20
   ∧ kv (lib twenty) = KV.range 20 ∧ in_int32 (20 - first_image_npos "qwen3vl"))
  ∧ kv (lib (final (cache_shift "qwen3vl" twenty))) = KV.range 17
  ∧ result (cache_shift "qwen3vl" twenty) = Ok 17.
Proof.
  assert (supported "qwen3vl" = true) as Hsup by reflexivity.
  assert (3 + first_image_npos "qwen3vl" ≤ 20) as HN by (by vm_compute).
  assert (kv (lib twenty) = KV.range 20) as Hkv by reflexivity.
  assert (in_int32 (20 - first_image_npos "qwen3vl")) as Hfit
    by (split; by vm_compute).
  split; [exact (conj Hsup (conj HN (conj Hkv Hfit)))|].
  destruct (shift_closes_gap "qwen3vl" 20 twenty Hsup HN Hkv) as (_ & Hc & _ & Hr).
  split; [exact Hc | exact (Hr Hfit)].
Defined.

Lemma prompt_has_two_images_witness :
  (("llama" ≠ "qwen3vl" ∧ "llama" ≠ "gemma3")
   ∧ build_prompt "llama" = inr "Unsupported architecture: llama")
  ∧ ((3 = 3 ∧ 0 ≤ key_id (runtime qwen) argv
      ∧ supported (model_arch (runtime qwen) argv) = true
      ∧ tally is_image_failure (trace (run (runtime qwen) 3 argv fresh)) = O)
     ∧ ∃ h1 h2 prompt rc,
         build_prompt (model_arch (runtime qwen) argv) = inl prompt
         ∧ occurrences media_marker prompt = 2%nat
         ∧ List.filter is_image_call (trace (run (runtime qwen) 3 argv fresh))
           = [EvBitmapInit (DICE_IMAGE_PATH (runtime qwen)) (Some h1);
              EvBitmapInit (DICE_IMAGE_PATH (runtime qwen)) (Some h2);
              EvTokenize prompt [h1; h2] rc])
  ∧ ((0 < tally is_image_failure (trace (run (runtime no_image) 3 argv fresh)))%nat
     ∧ tally is_tokenize (trace (run (runtime no_image) 3 argv fresh)) = O).
Proof.
  assert ("llama" ≠ "qwen3vl") as Hq by discriminate.
  assert ("llama" ≠ "gemma3") as Hg by discriminate.
  assert (0 ≤ key_id (runtime qwen) argv) as Hk by (by vm_compute).
  assert (supported (model_arch (runtime qwen) argv) = true) as Hs
    by (vm_compute; reflexivity).
  assert (tally is_image_failure (trace (run (runtime qwen) 3 argv fresh)) = O) as Hi
    by (vm_compute; reflexivity).
  assert (0 < tally is_image_failure (trace (run (runtime no_image) 3 argv fresh)))%nat
    as Hf by (vm_compute; lia).
  split; [|split].
  - split; [exact (conj Hq Hg)|].
    exact (proj1 (proj2 (proj2 (prompt_has_two_images (runtime llama)))) "llama" Hq Hg).
  - split; [exact (conj eq_refl (conj Hk (conj Hs Hi)))|].
    exact (proj1 (proj2 (proj2 (proj2 (prompt_has_two_images (runtime qwen))))
                    3 argv fresh) eq_refl Hk Hs Hi).
  - split; [exact Hf|].
    exact (proj2 (proj2 (proj2 (proj2 (prompt_has_two_images (runtime no_image))))
                    3 argv fresh) (or_intror (or_intror (or_intror Hf)))).
Defined.

(** The run on qwen3vl tokenizes the prompt of build_prompt with the two
    bitmaps it loaded from dice.png. *)
Example tokenize_call_qwen :
  List.filter is_image_call (trace (run (runtime qwen) 3 argv fresh))
  = [EvBitmapInit "dice.png" (Some 4096); EvBitmapInit "dice.png" (Some 4097);
     EvTokenize ("<|im_start|>user" +:+ LF +:+
                 "<__media__><__media__>what is in the image?<|im_end|>" +:+ LF +:+
                 "<|im_start|>assistant" +:+ LF) [4096; 4097] 0].
Proof. vm_compute. reflexivity. Qed.

Lemma generate_tokens_eog_witness :
  (in_int32 5 ∧ 0 < 5
   ∧ common_sampler_sample (runtime gemma) (lib before_eog)
     = (103, MkLib ∅ (2%nat, 4))
   ∧ llama_vocab_is_eog (runtime gemma) 103 = true)
  ∧ gen_loop (runtime gemma) 6 5 0 533 [] before_eog
    = (Ok 533, boot (MkLib ∅ (2%nat, 4)),
       sampled_events (runtime gemma) 103 ++ [EvPrint Stdout " [EOS]" []])
  ∧ result (generate_tokens (runtime gemma) 530 5 "Before cache shift"
              (boot (MkLib ∅ (2%nat, 0))))
    = Ok 533.
Proof.
  assert (in_int32 5) as H5 by (split; by vm_compute).
  assert (0 < 5) as Hlt by reflexivity.
  assert (common_sampler_sample (runtime gemma) (lib before_eog)
          = (103, MkLib ∅ (2%nat, 4))) as Hs by reflexivity.
  assert (llama_vocab_is_eog (runtime gemma) 103 = true) as Heog by reflexivity.
  split; [exact (conj H5 (conj Hlt (conj Hs Heog)))|].
  destruct (generate_tokens_eog_and_positions (runtime gemma) 530 5 "Before cache shift"
              (boot (MkLib ∅ (2%nat, 0))) H5)
    as (Hloop & _ & _ & _ & Hpos).
  split.
  - exact (Hloop 5%nat 0 533 [] before_eog 103 _ Hlt Hs Heog).
  - rewrite Hpos. vm_compute. reflexivity.
Defined.

Lemma decode_failure_witness :
  (0 < 5
   ∧ common_sampler_sample (runtime decode_fails) (lib before_failure)
     = (100, MkLib ∅ (2%nat, 1))
   ∧ llama_vocab_is_eog (runtime decode_fails) 100 = false
   ∧ llama_decode (runtime decode_fails) [entry_of 100 20] (MkLib ∅ (2%nat, 1))
     = (1, MkLib ∅ (2%nat, 1))
   ∧ 1 ≠ 0
   ∧ (0 < tally is_eval_success (trace (run (runtime decode_fails) 3 argv fresh)))%nat
   ∧ (0 < tally is_decode_failure (trace (run (runtime decode_fails) 3 argv fresh)))%nat)
  ∧ gen_loop (runtime decode_fails) 6 5 0 20 [] before_failure
    = (Ok 21, boot (MkLib ∅ (2%nat, 1)),
       sampled_events (runtime decode_fails) 100 ++ submit_events 100 20 1
         ++ [EvPrint Stdout " [DECODE_FAILED]" []])
  ∧ exit_status (runtime decode_fails) 3 argv fresh = Exited 0.
Proof.
  assert (0 < 5) as Hlt by reflexivity.
  assert (common_sampler_sample (runtime decode_fails) (lib before_failure)
          = (100, MkLib ∅ (2%nat, 1))) as Hs by reflexivity.
  assert (llama_vocab_is_eog (runtime decode_fails) 100 = false) as Heog by reflexivity.
  assert (llama_decode (runtime decode_fails) [entry_of 100 20] (MkLib ∅ (2%nat, 1))
          = (1, MkLib ∅ (2%nat, 1))) as Hd by reflexivity.
  assert (1 ≠ 0) as Hrc by discriminate.
  assert (0 < tally is_eval_success (trace (run (runtime decode_fails) 3 argv fresh)))%nat
    as Heval by (vm_compute; lia).
  assert (0 < tally is_decode_failure (trace (run (runtime decode_fails) 3 argv fresh)))%nat
    as Hfail by (vm_compute; lia).
  split; [exact (conj Hlt (conj Hs (conj Heog (conj Hd (conj Hrc (conj Heval Hfail))))))|].
  destruct (decode_failure_is_not_fatal (runtime decode_fails)) as (Hloop & _ & Hexit & _).
  split.
  - exact (Hloop 5%nat 5 0 20 [] before_failure 100 _ 1 _ Hlt Hs Heog Hd Hrc).
  - exact (Hexit 3 argv fresh Heval).
Defined.

(** C8, as stated, fails: not every acquired handle is released on every
    exit path. With a model file that lacks the architecture key, on an
    implementation that does not unwind the stack for an uncaught
    exception, the gguf context created by get_model_arch is acquired and
    never released: it is still held when the process ends. *)
Lemma gguf_context_left_alive :
  unwinds_uncaught (runtime no_key) = false
  ∧ result (run (runtime no_key) 3 argv fresh) = Throw "Architecture key not found"
  ∧ tally (acquires RGguf) (trace (run (runtime no_key) 3 argv fresh)) = 1%nat
  ∧ List.filter is_resource_event (trace (run (runtime no_key) 3 argv fresh))
    = [EvAcquire RGguf]
  ∧ held_after [] (trace (run (runtime no_key) 3 argv fresh)) = Some [RGguf]
  ∧ held_after [] (trace (run (runtime no_key) 3 argv fresh)) ≠ Some [].
Proof. repeat split; try (vm_compute; reflexivity). vm_compute. congruence. Qed.

Lemma handles_released_witness :
  (result (run (runtime qwen) 3 argv fresh) = Exit 0
   ∧ (0 < tally (acquires RSampler) (trace (run (runtime qwen) 3 argv fresh)))%nat
   ∧ in_int32 5
   ∧ result (run (runtime no_key) 3 argv fresh) = Throw "Architecture key not found")
  ∧ held_after [] (trace (run (runtime qwen) 3 argv fresh)) = Some []
  ∧ scope (final (run (runtime qwen) 3 argv fresh)) = []
  ∧ held_after [RSampler]
      (trace (generate_tokens (runtime qwen) 20 5 "Before cache shift" twenty))
    = Some [RSampler]
  ∧ List.filter is_resource_event (trace (run (runtime no_key) 3 argv fresh))
    = [EvAcquire RGguf]
  ∧ held_after [] (trace (run (runtime no_key) 3 argv fresh)) = Some [RGguf].
Proof.
  assert (result (run (runtime qwen) 3 argv fresh) = Exit 0) as Hexit
    by (vm_compute; reflexivity).
  assert (0 < tally (acquires RSampler) (trace (run (runtime qwen) 3 argv fresh)))%nat
    as Hsampler by (vm_compute; lia).
  assert (in_int32 5) as H5 by (split; by vm_compute).
  assert (result (run (runtime no_key) 3 argv fresh) = Throw "Architecture key not found")
    as Hthrow by reflexivity.
  split; [exact (conj Hexit (conj Hsampler (conj H5 Hthrow)))|].
  destruct (handles_released (runtime qwen)) as (Hret & Hsam & Hbatch & _).
  destruct (handles_released (runtime no_key)) as (_ & _ & _ & Habort).
  destruct (Hret 3 argv fresh 0 Hexit) as [Hheld Hscope].
  destruct (Hsam 3 argv fresh Hsampler) as [_ _].
  destruct (Hbatch 20 5 "Before cache shift" twenty [RSampler] H5) as (Hb & _ & _).
  split; [exact Hheld|]. split; [exact Hscope|]. split; [exact Hb|].
  destruct (Habort 3 argv fresh _ Hthrow) as (Hevents & Hleft & _).
  split; [exact Hevents | exact Hleft].
Defined.

Lemma generation_terminates_witness :
  (in_int32 5 ∧ (Z.to_nat 5 < 9)%nat)
  ∧ (∃ n_pos', result (generate_tokens (runtime qwen) 20 5 "Before cache shift" twenty)
               = Ok n_pos')
  ∧ gen_loop (runtime qwen) 9 5 0 20 [] twenty
    = gen_loop (runtime qwen) (S (Z.to_nat 5)) 5 0 20 [] twenty
  ∧ (tally is_decode
       (trace (generate_tokens (runtime qwen) 20 5 "Before cache shift" twenty))
     ≤ Z.to_nat 5)%nat.
Proof.
  assert (in_int32 5) as H5 by (split; by vm_compute).
  assert (Z.to_nat 5 < 9)%nat as Hfuel by (vm_compute; lia).
  split; [exact (conj H5 Hfuel)|].
  destruct (proj1 (generation_terminates (runtime qwen)) 20 5 "Before cache shift" twenty H5)
    as (Hok & Hmono & _ & _ & Hd).
  split; [exact Hok|]. split; [exact (Hmono 9%nat Hfuel) | exact Hd].
Defined.

End Runs.

(** ** More runs on the scripted runtime *)

Module MoreRuns.

Import Scripted.

Lemma generate_tokens_no_rounds_witness :
  (0 ≤ 0 ∧ -2 ≤ 0)
  ∧ generate_tokens (runtime qwen) 20 0 "Before cache shift" twenty
    = (Ok 20, twenty,
       [gen_banner "Before cache shift"; EvAcquire RBatch; EvRelease RBatch;
        EvPrint Stdout LF []])
  ∧ result (generate_tokens (runtime qwen) 20 (-2) "Before cache shift" twenty) = Ok 20.
Proof.
  assert (0 ≤ 0) as H0 by (by vm_compute).
  assert (-2 ≤ 0) as H2 by (by vm_compute).
  split; [exact (conj H0 H2)|]. split.
  - exact (generate_tokens_no_rounds (runtime qwen) 20 0 "Before cache shift" twenty H0).
  - rewrite (generate_tokens_no_rounds (runtime qwen) 20 (-2) "Before cache shift" twenty H2).
    reflexivity.
Defined.

Lemma generate_tokens_full_pass_witness :
  (in_int32 5
   ∧ (∀ tok, llama_vocab_is_eog steady tok = false)
   ∧ (∀ b l, (llama_decode steady b l).1 = 0)
   ∧ 0 ≤ 5 ∧ in_int32 20 ∧ in_int32 (20 + 5))
  ∧ tally is_decode (trace (generate_tokens steady 20 5 "Before cache shift" twenty)) = 5%nat
  ∧ result (generate_tokens steady 20 5 "Before cache shift" twenty) = Ok 25.
Proof.
  assert (in_int32 5) as H5 by (split; by vm_compute).
  assert (∀ tok, llama_vocab_is_eog steady tok = false) as Heog by (intros; reflexivity).
  assert (∀ b l, (llama_decode steady b l).1 = 0) as Hdec by (intros; reflexivity).
  assert (0 ≤ 5) as H0 by (by vm_compute).
  assert (in_int32 20) as H20 by (split; by vm_compute).
  assert (in_int32 (20 + 5)) as H25 by (split; by vm_compute).
  split; [exact (conj H5 (conj Heog (conj Hdec (conj H0 (conj H20 H25)))))|].
  destruct (generate_tokens_full_pass steady 20 5 "Before cache shift" twenty H5 Heog Hdec)
    as (_ & Hd & _ & Hr).
  split; [exact Hd | exact (Hr H0 H20 H25)].
Defined.


Lemma generate_tokens_batches_witness :
  in_int32 5
  ∧ be_pos <$> added_entries
                 (trace (generate_tokens (runtime gemma) 530 5 "Before cache shift"
                           (boot (MkLib ∅ (2%nat, 0)))))
    = [530; 531; 532].
Proof.
  assert (in_int32 5) as H5 by (split; by vm_compute).
  split; [exact H5|].
  rewrite (proj1 (proj2 (generate_tokens_batches (runtime gemma) 530 5 "Before cache shift"
                           (boot (MkLib ∅ (2%nat, 0))) H5))).
  vm_compute. reflexivity.
Defined.

Lemma rejected_runs_load_nothing_witness :
  (2 ≠ 3
   ∧ trace (run (runtime qwen) 2 argv fresh)
     = [EvPrint Stdout ("Usage: %s <model_path> <mmproj_path>" +:+ LF) [AStr "test_kvc"]])
  ∧ ((3 = 3 ∧ key_id (runtime no_key) argv < 0)
     ∧ List.filter is_call (trace (run (runtime no_key) 3 argv fresh))
       = [EvCommonInit; EvAcquire RGguf])
  ∧ ((3 = 3 ∧ 0 ≤ key_id (runtime llama) argv
      ∧ supported (model_arch (runtime llama) argv) = false)
     ∧ List.filter is_call (trace (run (runtime llama) 3 argv fresh))
       = [EvCommonInit; EvAcquire RGguf; EvRelease RGguf]).
Proof.
  assert (2 ≠ 3) as H2 by lia.
  assert (key_id (runtime no_key) argv < 0) as Hn by (by vm_compute).
  assert (0 ≤ key_id (runtime llama) argv) as Hk by (by vm_compute).
  assert (supported (model_arch (runtime llama) argv) = false) as Hs
    by (vm_compute; reflexivity).
  split; [|split].
  - split; [exact H2|].
    exact (proj1 (rejected_runs_load_nothing (runtime qwen) 2 argv fresh) H2).
  - split; [exact (conj eq_refl Hn)|].
    exact (proj1 (proj2 (rejected_runs_load_nothing (runtime no_key) 3 argv fresh))
             eq_refl Hn).
  - split; [exact (conj eq_refl (conj Hk Hs))|].
    exact (proj1 (proj2 (proj2 (rejected_runs_load_nothing (runtime llama) 3 argv fresh)))
             eq_refl Hk Hs).
Defined.

Lemma image_loaded_twice_witness :
  (3 = 3 ∧ 0 ≤ key_id (runtime no_image) argv
   ∧ supported (model_arch (runtime no_image) argv) = true)
  ∧ ∃ img1 img2,
      List.filter is_bitmap_init (trace (run (runtime no_image) 3 argv fresh))
      = [EvBitmapInit "dice.png" img1; EvBitmapInit "dice.png" img2].
Proof.
  assert (3 = 3) as H3 by reflexivity.
  assert (0 ≤ key_id (runtime no_image) argv) as Hkey by (by vm_compute).
  assert (supported (model_arch (runtime no_image) argv) = true) as Hsup by reflexivity.
  split; [exact (conj H3 (conj Hkey Hsup))|].
  destruct (proj1 (image_loaded_twice_or_never (runtime no_image) 3 argv fresh) H3 Hkey Hsup)
    as (img1 & img2 & Hloads & _).
  exists img1, img2. exact Hloads.
Defined.

Lemma stages_in_order_witness :
  tally (acquires RSampler) (trace (run (runtime no_image) 3 argv fresh)) = O
  ∧ tally is_sample (trace (run (runtime no_image) 3 argv fresh)) = O.
Proof.
  assert (tally (acquires RSampler) (trace (run (runtime no_image) 3 argv fresh)) = O) as H
    by (vm_compute; reflexivity).
  split; [exact H|].
  destruct (stages_in_order (runtime no_image) 3 argv fresh) as (_ & _ & _ & _ & _ & _ & Hgen).
  exact (proj1 (Hgen H)).
Defined.

Lemma passes_start_witness :
  exit_status (runtime gemma) 3 argv fresh = Exited 0
  ∧ ∃ n0 r0 r1,
      List.filter is_report (trace (run (runtime gemma) 3 argv fresh))
      = [EvEvalChunks 0 0 n0; EvSeqPosMax 0 r0; EvSeqPosMax 0 r1].
Proof.
  assert (exit_status (runtime gemma) 3 argv fresh = Exited 0) as H
    by (vm_compute; reflexivity).
  split; [exact H|].
  destruct (passes_start_where_reported (runtime gemma) 3 argv fresh H)
    as (n0 & r0 & r1 & Hrep & _).
  exists n0, r0, r1. exact Hrep.
Defined.

Lemma shift_moves_the_tail_witness :
  (supported "qwen3vl" = true ∧ 3 ≤ 5 ∧ 5 + first_image_npos "qwen3vl" ∈ kv (lib twenty))
  ∧ 5 ∈ kv (lib (final (cache_shift "qwen3vl" twenty))).
Proof.
  assert (supported "qwen3vl" = true) as Hsup by reflexivity.
  assert (3 ≤ 5) as H5 by (by vm_compute).
  assert (5 + first_image_npos "qwen3vl" ∈ kv (lib twenty)) as Hin.
  { apply elem_of_range. split; by vm_compute. }
  split; [exact (conj Hsup (conj H5 Hin))|].
  apply (shift_moves_the_tail "qwen3vl" twenty 5 Hsup).
  right. exact (conj H5 Hin).
Defined.

End MoreRuns.
